(** * node-athena: the request layer ([AthenaRequest]) and [createClient]

    A shallow embedding of [src/index.ts] and of the request module that
    follows it in the same source file.

    Conventions of the embedding.
    - A JavaScript [number] is a [Z].  Every number the code computes with
      here is a retry counter, a delay in milliseconds or a bound on one of
      them; the embedding is exact as long as these are integers below 2^53.
    - An optional field ([x?: T]) is an [option]; [undefined] is [None].
    - A JavaScript string is a [string]; the only characters the code looks
      at are ASCII ones (['/'] and the text ['s3://']).
    - A promise is its final state: pending for ever, fulfilled or rejected.
    - The remote service is a script: the list of answers it gives to the
      successive [send] calls of one operation.  An exhausted script is a
      service that does not answer. *)

From Stdlib Require Import ZArith Lia Bool List String Ascii.
Import ListNotations.

Open Scope string_scope.
Open Scope Z_scope.

(* ------------------------------------------------------------------ *)
(** ** JavaScript values *)

(** [x || d] on an optional number: [undefined] and [0] are falsy. *)
Definition num_or (x : option Z) (d : Z) : Z :=
  match x with
  | Some v => if v =? 0 then d else v
  | None => d
  end.

(** [x || d] on an optional string: [undefined] and [''] are falsy. *)
Definition str_or (x : option string) (d : string) : string :=
  match x with
  | Some "" => d
  | Some v => v
  | None => d
  end.

(** Truthiness of an optional string, as [&&] tests it. *)
Definition truthy_str (x : option string) : bool :=
  match x with
  | Some "" => false
  | Some _ => true
  | None => false
  end.

(** The classes of error objects the code distinguishes with [instanceof]
    or builds itself. *)
Inductive ErrorClass : Type :=
| PlainError                 (* new Error(msg) *)
| TypeError                  (* raised by the runtime *)
| TooManyRequestsException   (* @aws-sdk/client-athena *)
| ServiceException.          (* any other exception of the SDK *)

Record JsError : Type := mkError {
  err_class : ErrorClass;
  message : string
}.

Definition Error (msg : string) : JsError := mkError PlainError msg.

Definition ErrorClass_eqb (a b : ErrorClass) : bool :=
  match a, b with
  | PlainError, PlainError
  | TypeError, TypeError
  | TooManyRequestsException, TooManyRequestsException
  | ServiceException, ServiceException => true
  | _, _ => false
  end.

(** What a call that may throw, or an awaited remote call, produces. *)
Inductive outcome (A : Type) : Type :=
| Ok (a : A)
| Fail (e : JsError).
Arguments Ok {A} a.
Arguments Fail {A} e.

(** The final state of a promise. *)
Inductive promise (A : Type) : Type :=
| Pending
| Fulfilled (a : A)
| Rejected (e : JsError).
Arguments Pending {A}.
Arguments Fulfilled {A} a.
Arguments Rejected {A} e.

(* ------------------------------------------------------------------ *)
(** ** Configuration *)

Inductive EncryptionOption : Type := SSE_S3 | SSE_KMS | CSE_KMS.

Record AthenaRequestConfig : Type := mkConfig {
  bucketUri : string;
  baseRetryWait : option Z;
  retryWaitMax : option Z;
  retryCountMax : option Z;
  database : option string;
  encryptionOption : option EncryptionOption;
  encryptionKmsKey : option string;
  workGroup : option string
}.

Definition defaultBaseRetryWait : Z := 200.
Definition defaultRetryWaitMax : Z := 10000.
Definition defaultRetryCountMax : Z := 10.

(* ------------------------------------------------------------------ *)
(** ** Retry eligibility *)

Definition isRetryException (err : JsError) : bool :=
  ErrorClass_eqb (err_class err) TooManyRequestsException
  || (message err =? "Query exhausted resources at this scale factor")%string.

Definition canRetry (retryCount : Z) (config : AthenaRequestConfig) : bool :=
  retryCount <? num_or (retryCountMax config) defaultRetryCountMax.

(* ------------------------------------------------------------------ *)
(** ** The request sent by [startQuery] *)

Record EncryptionConfiguration : Type := mkEncryption {
  EncryptionOption_ : EncryptionOption;
  KmsKey : option string
}.

Record ResultConfiguration : Type := mkResultConfiguration {
  OutputLocation : string;
  EncryptionConfiguration_ : option EncryptionConfiguration
}.

Record StartQueryExecutionInput : Type := mkStartInput {
  QueryString : string;
  ResultConfiguration_ : ResultConfiguration;
  Database : string;          (* QueryExecutionContext.Database *)
  WorkGroup : string
}.

(** The object literal [params] of [startQuery].  A spread of a falsy
    value adds no field. *)
Definition startQuery_params (query : string) (config : AthenaRequestConfig)
  : StartQueryExecutionInput :=
  {| QueryString := query;
     ResultConfiguration_ :=
       {| OutputLocation := bucketUri config;
          EncryptionConfiguration_ :=
            match encryptionOption config with
            | Some opt =>
                Some {| EncryptionOption_ := opt;
                        KmsKey := if truthy_str (encryptionKmsKey config)
                                  then encryptionKmsKey config else None |}
            | None => None
            end |};
     Database := str_or (database config) "default";
     WorkGroup := str_or (workGroup config) "primary" |}.

(* ------------------------------------------------------------------ *)
(** ** The delay computed in each [catch] block *)

(** [startQuery]:
    [let wait = (config.baseRetryWait || defaultBaseRetryWait) * Math.pow(2, retryCount++)]
    [wait = Math.min(wait, config.retryWaitMax || defaultRetryWaitMax)] *)
Definition startQuery_wait (config : AthenaRequestConfig) (retryCount : Z) : Z :=
  let wait := num_or (baseRetryWait config) defaultBaseRetryWait * 2 ^ retryCount in
  Z.min wait (num_or (retryWaitMax config) defaultRetryWaitMax).

(** [stopQuery]:
    [const wait = Math.pow(config.baseRetryWait || defaultBaseRetryWait, retryCount++)]
    The power is the integer one: it is what [Math.pow] returns as long as
    the result is at most 2^53 in absolute value; a larger result may reach
    the code as a rounded double. *)
Definition stopQuery_wait (config : AthenaRequestConfig) (retryCount : Z) : Z :=
  num_or (baseRetryWait config) defaultBaseRetryWait ^ retryCount.

(** [getQueryExecution]: the same expression as in [stopQuery], exact on
    the same range. *)
Definition getQueryExecution_wait (config : AthenaRequestConfig) (retryCount : Z) : Z :=
  num_or (baseRetryWait config) defaultBaseRetryWait ^ retryCount.

(* ------------------------------------------------------------------ *)
(** ** Promises and the retry loop *)

(** [resolve] and [reject], the two capabilities an executor receives from
    [new Promise].  Only the first call on a pending promise has an effect. *)
Definition resolve {A : Type} (v : A) (p : promise A) : promise A :=
  match p with
  | Pending => Fulfilled v
  | _ => p
  end.

Definition reject {A : Type} (e : JsError) (p : promise A) : promise A :=
  match p with
  | Pending => Rejected e
  | _ => p
  end.

(** What one call of the async function [loopFunc] hands to its own promise:
    the value of a [return] (a value taken from the response, or the timer
    handle that [setTimeout] returns) or the error of a [throw]. *)
Inductive loop_value (V : Type) : Type :=
| Value (v : V)
| Timeout (ms : Z).
Arguments Value {V} v.
Arguments Timeout {V} ms.

Inductive completion (V : Type) : Type :=
| Returned (v : loop_value V)
| Thrown (e : JsError).
Arguments Returned {V} v.
Arguments Thrown {V} e.

(** Everything observable about one operation ([startQuery], [stopQuery] or
    [getQueryExecution]):
    - [outer]: the promise built by [new Promise] and handed to the caller;
    - [retryCount]: the local variable of that name;
    - [sent]: the commands passed to [this.athena.send], oldest first;
    - [timers]: the delays passed to [setTimeout], oldest first;
    - [completions]: how the promise of each [loopFunc()] call settled,
      oldest first.  No code holds on to these promises: the first call is
      the statement [loopFunc()], the later ones are made by the timer. *)
Record run (R C V : Type) : Type := mkRun {
  outer : promise R;
  retryCount : Z;
  sent : list C;
  timers : list Z;
  completions : list (completion V)
}.
Arguments mkRun {R C V}.
Arguments outer {R C V}.
Arguments retryCount {R C V}.
Arguments sent {R C V}.
Arguments timers {R C V}.
Arguments completions {R C V}.

Section RunUpdates.
Context {R C V : Type}.

(** [let retryCount = 0], before anything has happened. *)
Definition newRun : run R C V := mkRun Pending 0 [] [] [].

Definition send (c : C) (w : run R C V) : run R C V :=
  mkRun (outer w) (retryCount w) (sent w ++ [c]) (timers w) (completions w).

Definition increment (w : run R C V) : run R C V :=
  mkRun (outer w) (retryCount w + 1) (sent w) (timers w) (completions w).

Definition setTimeout (ms : Z) (w : run R C V) : run R C V :=
  mkRun (outer w) (retryCount w) (sent w) (timers w ++ [ms]) (completions w).

Definition complete (c : completion V) (w : run R C V) : run R C V :=
  mkRun (outer w) (retryCount w) (sent w) (timers w) (completions w ++ [c]).
End RunUpdates.

(** The three operations run the same loop; they differ in the command they
    send, in the value they return from the response and in the expression
    that computes the delay. *)
Section RetryLoop.
Context {R C D V : Type}.
Variable config : AthenaRequestConfig.
Variable command : C.          (* new ...Command(params) *)
Variable returned : D -> V.    (* the operand of [return] in the [try] block *)
Variable wait_of : Z -> Z.     (* the delay, from the value of [retryCount] *)

(** [loopFunc], run over the answers of the service.
    - No answer: the call stays suspended at [await].
    - An answer: the call returns and its own promise is fulfilled.
    - An error that may be retried: the delay is computed from the current
      [retryCount], [retryCount] is incremented, a timer is set and the
      call returns the timer handle; when the timer fires it calls
      [loopFunc] again.
    - Any other error: it is thrown again, which rejects the promise of
      this call of [loopFunc]. *)
Fixpoint loopFunc (answers : list (outcome D)) (w : run R C V) : run R C V :=
  match answers with
  | [] => send command w
  | Ok data :: _ =>
      complete (Returned (Value (returned data))) (send command w)
  | Fail err :: later =>
      let w := send command w in
      if isRetryException err && canRetry (retryCount w) config then
        let wait := wait_of (retryCount w) in
        let w := increment w in
        loopFunc later (complete (Returned (Timeout wait)) (setTimeout wait w))
      else
        complete (Thrown err) w
  end.
End RetryLoop.

(* ------------------------------------------------------------------ *)
(** ** [AthenaRequest]: the operations on the query service *)

Record StartQueryExecutionOutput : Type := mkStartOutput {
  QueryExecutionId : option string
}.

Record QueryExecutionStatus : Type := mkStatus {
  State : option string;
  StateChangeReason : option string
}.

Record QueryExecution : Type := mkQueryExecution {
  Status : option QueryExecutionStatus
}.

Record GetQueryExecutionOutput : Type := mkGetOutput {
  QueryExecution_ : option QueryExecution
}.

(** The parameter object of the stop and get commands. *)
Record QueryExecutionIdParams : Type := mkIdParams {
  QueryExecutionId_ : string
}.

(** [startQuery]: the executor sets [retryCount], builds [params], defines
    [loopFunc] and calls it.  It calls neither [resolve] nor [reject]. *)
Definition startQuery_run (query : string) (config : AthenaRequestConfig)
    (answers : list (outcome StartQueryExecutionOutput))
  : run (option string) StartQueryExecutionInput (option string) :=
  let params := startQuery_params query config in
  loopFunc config params QueryExecutionId (startQuery_wait config) answers newRun.

Definition startQuery (query : string) (config : AthenaRequestConfig)
    (answers : list (outcome StartQueryExecutionOutput)) : promise (option string) :=
  outer (startQuery_run query config answers).

(** [stopQuery]: as [startQuery]; [loopFunc] returns [undefined]. *)
Definition stopQuery_run (queryId : string) (config : AthenaRequestConfig)
    (answers : list (outcome unit))
  : run unit QueryExecutionIdParams unit :=
  let params := {| QueryExecutionId_ := queryId |} in
  loopFunc config params (fun _ => tt) (stopQuery_wait config) answers newRun.

Definition stopQuery (queryId : string) (config : AthenaRequestConfig)
    (answers : list (outcome unit)) : promise unit :=
  outer (stopQuery_run queryId config answers).

(** [getQueryExecution]: as [startQuery]; [loopFunc] returns
    [data.QueryExecution]. *)
Definition getQueryExecution_run (queryId : string) (config : AthenaRequestConfig)
    (answers : list (outcome GetQueryExecutionOutput))
  : run (option QueryExecution) QueryExecutionIdParams (option QueryExecution) :=
  let params := {| QueryExecutionId_ := queryId |} in
  loopFunc config params QueryExecution_ (getQueryExecution_wait config) answers newRun.

Definition getQueryExecution (queryId : string) (config : AthenaRequestConfig)
    (answers : list (outcome GetQueryExecutionOutput))
  : promise (option QueryExecution) :=
  outer (getQueryExecution_run queryId config answers).

(** [state === lit] for a case label of the [switch]. *)
Definition case_label (state : option string) (lit : string) : bool :=
  match state with
  | Some s => (s =? lit)%string
  | None => false
  end.

(** The [switch] of [checkQuery] on the raw state, with the two variables
    it assigns, [isSucceed] and [error].  In the template literal of the
    default case an [undefined] state prints as [undefined]. *)
Definition classify (status : QueryExecutionStatus) : bool * option JsError :=
  let state := State status in
  if case_label state "QUEUED" || case_label state "RUNNING" then
    (false, None)
  else if case_label state "SUCCEEDED" then
    (true, None)
  else if case_label state "FAILED" then
    let errMsg := str_or (StateChangeReason status) "FAILED: Execution Error" in
    (false, Some (Error errMsg))
  else if case_label state "CANCELLED" then
    (false, Some (Error "FAILED: Query CANCELLED"))
  else
    let shown := match state with Some s => s | None => "undefined" end in
    (false, Some (Error ("FAILED: UnKnown State " ++ shown))).

(** The callback given to [then].  Reading [Status] of an undefined
    execution, or [State] of an undefined status, raises a [TypeError];
    it rejects the promise of [then] and reaches the [catch] callback,
    which calls [reject]. *)
Definition checkQuery_then (queryExecution : option QueryExecution)
    (p : promise bool) : promise bool :=
  match queryExecution with
  | None =>
      reject (mkError TypeError "Cannot read properties of undefined (reading 'Status')") p
  | Some qe =>
      match Status qe with
      | None =>
          reject (mkError TypeError "Cannot read properties of undefined (reading 'State')") p
      | Some status =>
          match classify status with
          | (_, Some error) => reject error p
          | (isSucceed, None) => resolve isSucceed p
          end
      end
  end.

(** [checkQuery], from the state of the promise that [getQueryExecution]
    returned: [then] runs its callback once that promise is fulfilled,
    [catch] rejects with the error once it is rejected, and nothing happens
    while it is pending. *)
Definition checkQuery_on (inner : promise (option QueryExecution)) : promise bool :=
  match inner with
  | Pending => Pending
  | Fulfilled queryExecution => checkQuery_then queryExecution Pending
  | Rejected err => reject err Pending
  end.

Definition checkQuery (queryId : string) (config : AthenaRequestConfig)
    (answers : list (outcome GetQueryExecutionOutput)) : promise bool :=
  checkQuery_on (getQueryExecution queryId config answers).

(* ------------------------------------------------------------------ *)
(** ** [getResultsStream]: from the locator to the object request *)

(** [s.replace(pat, rep)] with a string pattern: the leftmost occurrence of
    [pat] is replaced, the rest of [s] is kept.  ([rep] is the empty string
    at the only call, so the dollar patterns of [replace] play no part.) *)
Fixpoint drop (n : nat) (s : string) : string :=
  match n, s with
  | O, _ => s
  | S n', String _ s' => drop n' s'
  | S _, EmptyString => EmptyString
  end.

Fixpoint replace (pat rep s : string) : string :=
  if prefix pat s then rep ++ drop (length pat) s
  else match s with
       | EmptyString => EmptyString
       | String c s' => String c (replace pat rep s')
       end.

(** [s.split(sep)] for a separator of one character: one segment more than
    there are separators, so the empty string gives one empty segment. *)
Fixpoint split (sep : ascii) (s : string) : list string :=
  match s with
  | EmptyString => [EmptyString]
  | String c s' =>
      if Ascii.eqb c sep then EmptyString :: split sep s'
      else match split sep s' with
           | seg :: segs => String c seg :: segs
           | [] => [String c EmptyString]
           end
  end.

(** [arr.shift()]: the first element, or [undefined], and what is left of
    the array. *)
Definition shift (arr : list string) : option string * list string :=
  match arr with
  | [] => (None, [])
  | x :: rest => (Some x, rest)
  end.

(** [arr.join(sep)]. *)
Definition join (sep : string) (arr : list string) : string := concat sep arr.

Record GetObjectCommandInput : Type := mkGetObject {
  Bucket : string;
  Key : string
}.

(** The first three statements of [getResultsStream] and the input of the
    [GetObjectCommand] built from them. *)
Definition getResultsStream_params (s3Uri : string) : GetObjectCommandInput :=
  let arr := split "/" (replace "s3://" "" s3Uri) in
  let '(shifted, arr) := shift arr in
  let bucket := str_or shifted "" in
  let key := join "/" arr in
  {| Bucket := bucket; Key := key |}.

(** The object store: what [this.s3.send] answers to a [GetObjectCommand],
    and the bytes [response.Body.transformToByteArray()] gives; an absent
    body makes the call on it raise a [TypeError]. *)
Definition ObjectStore : Type :=
  GetObjectCommandInput -> outcome (option (list Byte.byte)).

(** [getResultsStream] is an async function: its promise is fulfilled by
    its [return] and rejected by whatever an awaited call throws.  No retry
    surrounds the call. *)
Definition getResultsStream (s3 : ObjectStore) (s3Uri : string)
  : promise (list Byte.byte) :=
  match s3 (getResultsStream_params s3Uri) with
  | Fail err => Rejected err
  | Ok None =>
      Rejected (mkError TypeError
        "Cannot read properties of undefined (reading 'transformToByteArray')")
  | Ok (Some data) => Fulfilled data
  end.

(* ------------------------------------------------------------------ *)
(** ** [createClient] *)

(** The client configuration is declared in [./lib/client], which is not
    among the sources; [createClient] reads its [bucketUri] and passes the
    object on.  The field can be [undefined] at run time, which the code
    tests for. *)
Record AthenaClientConfig : Type := mkClientConfig {
  client_bucketUri : option string
}.

Record AwsConfig : Type := mkAwsConfig {
  region : option string;
  accessKeyId : option string;
  secretAccessKey : option string
}.

(** The service handles: the configuration object each constructor gets. *)
Record AwsAthenaClient : Type := mkAwsAthenaClient {
  athena_config : AwsConfig;
  athena_apiVersion : string
}.

Record S3 : Type := mkS3 {
  s3_config : AwsConfig;
  s3_apiVersion : string
}.

Record AthenaRequest : Type := mkAthenaRequest {
  athena : AwsAthenaClient;
  s3 : S3
}.

(** The class [AthenaClient] is declared in [./lib/client] too; only the
    call of its constructor is modelled, as the pair of its arguments. *)
Record AthenaClient : Type := mkAthenaClient {
  client_request : AthenaRequest;
  client_config : AthenaClientConfig
}.

(** What [createClient] does besides computing its result. *)
Inductive Effect : Type :=
| NewAwsAthenaClient (h : AwsAthenaClient)
| NewS3 (h : S3).

(** [s === undefined || s.length === 0] *)
Definition undefined_or_empty (s : option string) : bool :=
  match s with
  | None => true
  | Some v => Nat.eqb (length v) 0
  end.

(** [createClient]: the effects performed, oldest first, and the result. *)
Definition createClient (clientConfig : option AthenaClientConfig)
    (awsConfig : option AwsConfig) : list Effect * outcome AthenaClient :=
  match clientConfig with
  | None => ([], Fail (Error "bucket uri required"))
  | Some clientConfig' =>
      if undefined_or_empty (client_bucketUri clientConfig') then
        ([], Fail (Error "bucket uri required"))
      else
        match awsConfig with
        | None => ([], Fail (Error "region required"))
        | Some awsConfig' =>
            if undefined_or_empty (region awsConfig') then
              ([], Fail (Error "region required"))
            else
              let athena := mkAwsAthenaClient awsConfig' "2017-05-18" in
              let s3 := mkS3 awsConfig' "2006-03-01" in
              let request := mkAthenaRequest athena s3 in
              ([NewAwsAthenaClient athena; NewS3 s3],
               Ok (mkAthenaClient request clientConfig'))
        end
  end.

(* ------------------------------------------------------------------ *)
(** ** Vocabulary of the properties *)

(** The bound [canRetry] compares the retry counter with. *)
Definition maxAttempts (config : AthenaRequestConfig) : Z :=
  num_or (retryCountMax config) defaultRetryCountMax.

(** The two signals [isRetryException] accepts. *)
Definition transient (err : JsError) : Prop :=
  err_class err = TooManyRequestsException
  \/ message err = "Query exhausted resources at this scale factor".

(** [c] occurs in [s]. *)
Fixpoint has_char (c : ascii) (s : string) : bool :=
  match s with
  | EmptyString => false
  | String a s' => Ascii.eqb a c || has_char c s'
  end.

(** [s] is [pre ++ pat ++ post], and [pat] occurs nowhere further left. *)
Definition first_occurrence (pat s pre post : string) : Prop :=
  s = pre ++ pat ++ post
  /\ forall pre' post', s = pre' ++ pat ++ post' -> (length pre <= length pre')%nat.

(** The client configuration is missing or has no usable [bucketUri]. *)
Definition no_bucketUri (clientConfig : option AthenaClientConfig) : Prop :=
  match clientConfig with
  | None => True
  | Some c => client_bucketUri c = None \/ client_bucketUri c = Some ""
  end.

(** The AWS configuration is missing or has no usable [region]. *)
Definition no_region (awsConfig : option AwsConfig) : Prop :=
  match awsConfig with
  | None => True
  | Some c => region c = None \/ region c = Some ""
  end.

(** The consecutive integers [from], [from + 1], ... ([n] of them). *)
Fixpoint counts (from : Z) (n : nat) : list Z :=
  match n with
  | O => []
  | S n' => from :: counts (from + 1) n'
  end.

(** The run [w] after [k] more retries: [k] commands sent and answered with
    an error that was retried, [k] timers set from the successive values
    of the counter, [k] calls of [loopFunc] returned with a timer handle. *)
Definition retried {R C V : Type} (command : C) (wait_of : Z -> Z) (k : nat)
    (w : run R C V) : run R C V :=
  mkRun (outer w)
        (retryCount w + Z.of_nat k)
        (sent w ++ repeat command k)
        (timers w ++ map wait_of (counts (retryCount w) k))
        (completions w
         ++ map (fun n => Returned (Timeout (wait_of n))) (counts (retryCount w) k)).

(** How the last call of [loopFunc] in a run ends: the service does not
    answer, it answers with data, or it answers with an error that is
    thrown again. *)
Inductive ending (D : Type) : Type :=
| Unanswered
| Answered (data : D)
| GaveUp (err : JsError).
Arguments Unanswered {D}.
Arguments Answered {D} data.
Arguments GaveUp {D} err.

(** The last call of [loopFunc] on the run [w]: one more command, and the
    completion the ending brings, if any. *)
Definition last_call {R C D V : Type} (command : C) (returned : D -> V)
    (e : ending D) (w : run R C V) : run R C V :=
  match e with
  | Unanswered => send command w
  | Answered data => complete (Returned (Value (returned data))) (send command w)
  | GaveUp err => complete (Thrown err) (send command w)
  end.

(** Sample inputs. *)
Definition plainConfig : AthenaRequestConfig :=
  mkConfig "s3://results/" None None None None None None None.

(** A configuration that asks for no retry at all. *)
Definition zeroBoundConfig : AthenaRequestConfig :=
  mkConfig "s3://results/" None None (Some 0) None None None None.

Definition throttled : JsError :=
  mkError TooManyRequestsException "Rate exceeded".

Definition accessDenied : JsError :=
  mkError ServiceException "User is not authorized to perform: athena:StartQueryExecution".

(* ------------------------------------------------------------------ *)
(** ** The retry loop *)

Section RetryLoopFacts.
Context {R C D V : Type}.
Variable config : AthenaRequestConfig.
Variable command : C.
Variable returned : D -> V.
Variable wait_of : Z -> Z.

(** The loop never touches the promise handed to the caller. *)
Lemma loopFunc_outer (answers : list (outcome D)) (w : run R C V) :
  outer (loopFunc config command returned wait_of answers w) = outer w.
Proof.
  revert w.
  induction answers as [|a later IH]; intro w; simpl.
  - reflexivity.
  - destruct a as [data|err]; [reflexivity|].
    destruct (isRetryException err && canRetry (retryCount w) config).
    + rewrite IH. reflexivity.
    + reflexivity.
Qed.

(** Every command of the loop is the one built before the loop. *)
Lemma loopFunc_sent (answers : list (outcome D)) (w : run R C V) :
  (forall c, In c (sent w) -> c = command) ->
  forall c, In c (sent (loopFunc config command returned wait_of answers w)) -> c = command.
Proof.
  revert w.
  induction answers as [|a later IH]; intros w Hw c; simpl.
  - rewrite in_app_iff. simpl. intros [H|[H|[]]]; auto.
  - destruct a as [data|err].
    + simpl. rewrite in_app_iff. simpl. intros [H|[H|[]]]; auto.
    + destruct (isRetryException err && canRetry (retryCount w) config).
      * apply IH. simpl. intros c'. rewrite in_app_iff. simpl.
        intros [H|[H|[]]]; auto.
      * simpl. rewrite in_app_iff. simpl. intros [H|[H|[]]]; auto.
Qed.

(** An error that is not retried ends the loop: the error is thrown
    inside [loopFunc], no timer is set and nothing more is sent. *)
Lemma loopFunc_gives_up (err : JsError) (later : list (outcome D)) (w : run R C V) :
  isRetryException err && canRetry (retryCount w) config = false ->
  loopFunc config command returned wait_of (Fail err :: later) w = complete (Thrown err) (send command w).
Proof.
  intro H. simpl. rewrite H. reflexivity.
Qed.

(** An error that is retried sets one timer, with the delay computed from
    the counter before its increment, and the loop goes on. *)
Lemma loopFunc_retries (err : JsError) (later : list (outcome D)) (w : run R C V) :
  isRetryException err && canRetry (retryCount w) config = true ->
  loopFunc config command returned wait_of (Fail err :: later) w =
  loopFunc config command returned wait_of later
    (complete (Returned (Timeout (wait_of (retryCount w))))
       (setTimeout (wait_of (retryCount w)) (increment (send command w)))).
Proof.
  intro H. simpl. rewrite H. reflexivity.
Qed.

(** While the service keeps answering with transient errors and the
    counter stays below the bound, the delays are those of the counter
    values [retryCount], [retryCount + 1], ... in this order. *)
Lemma loopFunc_timers (errs : list JsError) (later : list (outcome D)) (w : run R C V) :
  Forall (fun e => isRetryException e = true) errs ->
  retryCount w + Z.of_nat (List.length errs) <= maxAttempts config ->
  exists w',
    loopFunc config command returned wait_of (map Fail errs ++ later) w = loopFunc config command returned wait_of later w'
    /\ retryCount w' = retryCount w + Z.of_nat (List.length errs)
    /\ timers w' = (timers w ++ map wait_of (counts (retryCount w) (List.length errs)))%list.
Proof.
  revert w. induction errs as [|e errs IH]; intros w Hall Hle.
  - exists w. simpl. rewrite Z.add_0_r, app_nil_r. auto.
  - inversion Hall as [|? ? He Hall']; subst.
    cbn [List.length] in Hle. rewrite Nat2Z.inj_succ in Hle.
    assert (Hc : isRetryException e && canRetry (retryCount w) config = true).
    { rewrite He. simpl. unfold canRetry. fold (maxAttempts config).
      apply Z.ltb_lt. lia. }
    cbn [map app]. rewrite (loopFunc_retries e _ w Hc).
    set (w1 := complete _ _).
    destruct (IH w1 Hall') as (w' & Hrun & Hcount & Htimers).
    { subst w1. simpl. lia. }
    exists w'. split; [exact Hrun|]. split.
    + rewrite Hcount. subst w1. cbn [List.length]. simpl retryCount.
      rewrite Nat2Z.inj_succ. lia.
    + rewrite Htimers. subst w1. simpl. rewrite <- app_assoc. reflexivity.
Qed.

(** Timers are only ever added. *)
Lemma loopFunc_timers_grow (answers : list (outcome D)) (w : run R C V) :
  exists more, timers (loopFunc config command returned wait_of answers w) = (timers w ++ more)%list.
Proof.
  revert w.
  induction answers as [|a later IH]; intro w; simpl.
  - exists []. rewrite app_nil_r. reflexivity.
  - destruct a as [data|err].
    + exists []. simpl. rewrite app_nil_r. reflexivity.
    + destruct (isRetryException err && canRetry (retryCount w) config).
      * match goal with |- context [loopFunc _ _ _ _ later ?w1] =>
          destruct (IH w1) as (more & Hmore) end.
        rewrite Hmore. simpl. rewrite <- app_assoc. eexists. reflexivity.
      * exists []. simpl. rewrite app_nil_r. reflexivity.
Qed.
End RetryLoopFacts.

Lemma counts_length (from : Z) (n : nat) : List.length (counts from n) = n.
Proof.
  revert from. induction n as [|n IH]; intro from; simpl; [reflexivity|].
  rewrite IH. reflexivity.
Qed.

Lemma firstn_exact {A : Type} (n : nat) (l more : list A) :
  List.length l = n -> firstn n (l ++ more)%list = l.
Proof.
  intro H. subst n. rewrite firstn_app, firstn_all, Nat.sub_diag.
  simpl. apply app_nil_r.
Qed.

(** None of the three operations settles the promise it returns,
    whatever the service answers. *)
Lemma startQuery_pending query config answers :
  startQuery query config answers = Pending.
Proof. unfold startQuery, startQuery_run. apply loopFunc_outer. Qed.

Lemma stopQuery_pending queryId config answers :
  stopQuery queryId config answers = Pending.
Proof. unfold stopQuery, stopQuery_run. apply loopFunc_outer. Qed.

Lemma getQueryExecution_pending queryId config answers :
  getQueryExecution queryId config answers = Pending.
Proof. unfold getQueryExecution, getQueryExecution_run. apply loopFunc_outer. Qed.

(** [checkQuery] waits on [getQueryExecution], so it does not settle
    either. *)
Lemma checkQuery_pending queryId config answers :
  checkQuery queryId config answers = Pending.
Proof. unfold checkQuery. rewrite getQueryExecution_pending. reflexivity. Qed.

(** C1, as the code has it: the service throttles twice and then accepts
    the query.  The third call of [loopFunc] returns the execution id, to a
    promise nobody holds; the promise [startQuery] returned stays pending
    and is not fulfilled with the id.  The same holds when the first call
    succeeds. *)
Theorem startQuery_id_not_delivered :
  let answers :=
    [Fail throttled; Fail throttled; Ok (mkStartOutput (Some "query-1"))] in
  startQuery "SELECT 1" plainConfig answers = Pending
  /\ startQuery "SELECT 1" plainConfig answers <> Fulfilled (Some "query-1")
  /\ completions (startQuery_run "SELECT 1" plainConfig answers) =
       [Returned (Timeout 200); Returned (Timeout 400);
        Returned (Value (Some "query-1"))]
  /\ startQuery "SELECT 1" plainConfig [Ok (mkStartOutput (Some "query-1"))]
       = Pending.
Proof.
  cbv zeta. repeat split; try reflexivity.
  rewrite startQuery_pending. discriminate.
Qed.

(** C2, as the code has it: an error that is not retried, and a transient
    error that arrives once the retries are used up, is thrown inside
    [loopFunc] and rejects the promise of that call only.  The promises
    returned by [startQuery], [stopQuery] and [getQueryExecution] stay
    pending: none of them is rejected with the error. *)
Theorem remote_failure_not_delivered :
  startQuery "SELECT 1" plainConfig [Fail accessDenied] = Pending
  /\ completions (startQuery_run "SELECT 1" plainConfig [Fail accessDenied])
       = [Thrown accessDenied]
  /\ stopQuery "query-1" plainConfig [Fail accessDenied] = Pending
  /\ completions (stopQuery_run "query-1" plainConfig [Fail accessDenied])
       = [Thrown accessDenied]
  /\ getQueryExecution "query-1" plainConfig [Fail accessDenied] = Pending
  /\ completions (getQueryExecution_run "query-1" plainConfig [Fail accessDenied])
       = [Thrown accessDenied]
  /\ startQuery "SELECT 1" plainConfig (repeat (Fail throttled) 11) = Pending
  /\ List.last
       (completions (startQuery_run "SELECT 1" plainConfig (repeat (Fail throttled) 11)))
       (Thrown accessDenied)
       = Thrown throttled
  /\ startQuery "SELECT 1" plainConfig [Fail accessDenied] <> Rejected accessDenied.
Proof.
  repeat split; try reflexivity.
  rewrite startQuery_pending. discriminate.
Qed.

(* ------------------------------------------------------------------ *)
(** ** The delays *)

(** The delay of [startQuery] is the doubling one, capped. *)
Lemma startQuery_wait_doubling (config : AthenaRequestConfig) (n : Z) :
  startQuery_wait config n =
  Z.min (num_or (baseRetryWait config) defaultBaseRetryWait * 2 ^ n)
        (num_or (retryWaitMax config) defaultRetryWaitMax).
Proof. reflexivity. Qed.

Lemma startQuery_wait_capped (config : AthenaRequestConfig) (n : Z) :
  startQuery_wait config n <= num_or (retryWaitMax config) defaultRetryWaitMax.
Proof. unfold startQuery_wait. apply Z.le_min_r. Qed.

Lemma startQuery_wait_monotone (config : AthenaRequestConfig) (n m : Z) :
  0 <= num_or (baseRetryWait config) defaultBaseRetryWait ->
  0 <= n <= m ->
  startQuery_wait config n <= startQuery_wait config m.
Proof.
  intros Hb Hnm. unfold startQuery_wait.
  apply Z.min_le_compat_r.
  apply Z.mul_le_mono_nonneg_l; [exact Hb|].
  apply Z.pow_le_mono_r; lia.
Qed.

(** In a run of [startQuery] that meets [k] transient errors in a row, with
    [k] within the bound, the first [k] timers carry the capped doubling
    delays of the attempts 0, 1, ..., k - 1. *)
Lemma startQuery_timers query config (errs : list JsError)
    (later : list (outcome StartQueryExecutionOutput)) :
  Forall (fun e => isRetryException e = true) errs ->
  Z.of_nat (List.length errs) <= maxAttempts config ->
  firstn (List.length errs)
    (timers (startQuery_run query config (map Fail errs ++ later)%list))
  = map (fun n => Z.min (num_or (baseRetryWait config) defaultBaseRetryWait * 2 ^ n)
                        (num_or (retryWaitMax config) defaultRetryWaitMax))
        (counts 0 (List.length errs)).
Proof.
  intros Hall Hle. unfold startQuery_run.
  destruct (loopFunc_timers (R := option string) config
              (startQuery_params query config) QueryExecutionId
              (startQuery_wait config) errs later newRun Hall)
    as (w' & Hrun & _ & Htimers).
  { simpl. lia. }
  rewrite Hrun.
  simpl in Htimers.
  destruct (loopFunc_timers_grow config (startQuery_params query config)
              QueryExecutionId (startQuery_wait config) later w')
    as (more & Hmore).
  rewrite Hmore, Htimers.
  apply firstn_exact.
  rewrite length_map. apply counts_length.
Qed.

(** C3, as the code has it: on the poll path the delay before the third
    retry is 200 to the power 2, not the doubling delay min(200 * 2^2, 10000);
    already the first delay is 200 to the power 0.  The submit path does
    follow the formula ([startQuery_wait_doubling], [startQuery_timers]). *)
Theorem getQueryExecution_wait_not_doubling :
  timers (getQueryExecution_run "query-1" plainConfig
            [Fail throttled; Fail throttled; Fail throttled; Ok (mkGetOutput None)])
    = [1; 200; 40000]
  /\ map (fun n => Z.min (200 * 2 ^ n) 10000) [0; 1; 2] = [200; 400; 800]
  /\ getQueryExecution_wait plainConfig 2 <> Z.min (200 * 2 ^ 2) 10000
  /\ timers (startQuery_run "SELECT 1" plainConfig
               [Fail throttled; Fail throttled; Fail throttled;
                Ok (mkStartOutput (Some "query-1"))])
       = [200; 400; 800].
Proof.
  repeat split; try reflexivity.
  vm_compute. discriminate.
Qed.

(** C4, as the code has it: with the default configuration the third delay
    of [stopQuery] is 40000 ms, above the cap of 10000 ms; the same holds
    for [getQueryExecution].  The delays of [startQuery] are capped and do
    not decrease ([startQuery_wait_capped], [startQuery_wait_monotone]). *)
Theorem stopQuery_wait_exceeds_cap :
  timers (stopQuery_run "query-1" plainConfig
            [Fail throttled; Fail throttled; Fail throttled; Ok tt])
    = [1; 200; 40000]
  /\ num_or (retryWaitMax plainConfig) defaultRetryWaitMax = 10000
  /\ num_or (retryWaitMax plainConfig) defaultRetryWaitMax
       < stopQuery_wait plainConfig 2
  /\ num_or (retryWaitMax plainConfig) defaultRetryWaitMax
       < getQueryExecution_wait plainConfig 2.
Proof. repeat split; reflexivity. Qed.

(* ------------------------------------------------------------------ *)
(** ** Retry eligibility *)

Lemma isRetryException_transient (err : JsError) :
  isRetryException err = true <-> transient err.
Proof.
  unfold isRetryException, transient. rewrite orb_true_iff.
  rewrite String.eqb_eq.
  destruct (err_class err); simpl; split; intros [H|H]; auto; discriminate.
Qed.

Lemma canRetry_below (n : Z) (config : AthenaRequestConfig) :
  canRetry n config = true <-> n < maxAttempts config.
Proof. unfold canRetry, maxAttempts. apply Z.ltb_lt. Qed.

(** C6, as the code has it: the configuration asks for a bound of 0, the
    counter is 0, equal to that bound, and the error is transient; the test
    holds all the same and the operation sets a timer and sends its command
    again. *)
Lemma retry_at_configured_bound_zero :
  retryCountMax zeroBoundConfig = Some 0
  /\ isRetryException throttled && canRetry 0 zeroBoundConfig = true
  /\ timers (stopQuery_run "query-1" zeroBoundConfig [Fail throttled; Ok tt]) = [1]
  /\ List.length (sent (stopQuery_run "query-1" zeroBoundConfig [Fail throttled; Ok tt]))
     = 2%nat.
Proof. repeat split. Qed.

(** C6, amended: the bound the counter is compared with is
    [config.retryCountMax] when that is set and is not 0, and 10 when it is
    unset or 0.  The test [isRetryException(err) && canRetry(retryCount, config)]
    holds exactly when the counter is below that bound and the error is one
    of the two transient signals; at a counter equal to that bound it fails
    for every error.  When the test fails, the loop of any of the three
    operations sets no timer and sends nothing more: it throws the error. *)
Theorem retry_only_transient_below_bound
    (err : JsError) (n : Z) (config : AthenaRequestConfig) :
  (forall m, retryCountMax config = Some m -> m <> 0 ->
     (isRetryException err && canRetry n config = true
      <-> n < m /\ transient err)
     /\ (n = m -> isRetryException err && canRetry n config = false))
  /\ (retryCountMax config = None \/ retryCountMax config = Some 0 ->
      (isRetryException err && canRetry n config = true
       <-> n < 10 /\ transient err)
      /\ (n = 10 -> isRetryException err && canRetry n config = false))
  /\ (isRetryException err && canRetry n config = false ->
      forall (R C D V : Type) (command : C) (returned : D -> V)
             (wait_of : Z -> Z) (later : list (outcome D)) (w : run R C V),
        retryCount w = n ->
        loopFunc config command returned wait_of (Fail err :: later) w
        = complete (Thrown err) (send command w)).
Proof.
  assert (Hiff : forall bound, maxAttempts config = bound ->
            (isRetryException err && canRetry n config = true
             <-> n < bound /\ transient err)
            /\ (n = bound -> isRetryException err && canRetry n config = false)).
  { intros bound <-.
    assert (H : isRetryException err && canRetry n config = true
                <-> n < maxAttempts config /\ transient err).
    { rewrite andb_true_iff, isRetryException_transient, canRetry_below. tauto. }
    split; [exact H|].
    intro Heq. apply not_true_is_false. rewrite H. lia. }
  split; [|split].
  - intros m Hm Hne. apply Hiff. unfold maxAttempts. rewrite Hm. simpl.
    destruct (Z.eqb_spec m 0); [contradiction|reflexivity].
  - intros [H|H]; apply Hiff; unfold maxAttempts; rewrite H; reflexivity.
  - intros Hfalse R C D V command returned wait_of later w Hw.
    apply loopFunc_gives_up. simpl. rewrite Hw. exact Hfalse.
Qed.

Lemma retry_only_transient_below_bound_witness :
  let three := mkConfig "s3://results/" None None (Some 3) None None None None in
  (retryCountMax three = Some 3 /\ 3 <> 0
   /\ isRetryException throttled && canRetry 3 three = false
   /\ isRetryException throttled && canRetry 2 three = true)
  /\ (retryCountMax zeroBoundConfig = Some 0
      /\ isRetryException throttled && canRetry 10 zeroBoundConfig = false
      /\ isRetryException throttled && canRetry 9 zeroBoundConfig = true)
  /\ (isRetryException accessDenied && canRetry 0 plainConfig = false
      /\ stopQuery_run "query-1" plainConfig [Fail accessDenied]
         = complete (Thrown accessDenied)
             (send {| QueryExecutionId_ := "query-1" |} newRun)).
Proof.
  intro three.
  assert (H3 : (3 : Z) <> 0) by discriminate.
  split; [|split].
  - split; [reflexivity|]. split; [exact H3|]. split.
    + exact (proj2 (proj1 (retry_only_transient_below_bound throttled 3 three)
                      3 eq_refl H3) eq_refl).
    + apply (proj1 (proj1 (retry_only_transient_below_bound throttled 2 three)
                      3 eq_refl H3)).
      split; [reflexivity|left; reflexivity].
  - split; [reflexivity|]. split.
    + exact (proj2 (proj1 (proj2 (retry_only_transient_below_bound
                                    throttled 10 zeroBoundConfig))
                      (or_intror eq_refl)) eq_refl).
    + apply (proj1 (proj1 (proj2 (retry_only_transient_below_bound
                                    throttled 9 zeroBoundConfig))
                      (or_intror eq_refl))).
      split; [reflexivity|left; reflexivity].
  - split; [reflexivity|].
    unfold stopQuery_run.
    apply (proj2 (proj2 (retry_only_transient_below_bound accessDenied 0 plainConfig))
             eq_refl).
    reflexivity.
Defined.

(** A configured bound of 0 is falsy, so the default of 10 stands in for
    it: the first transient error is retried. *)
Example canRetry_zero_bound :
  canRetry 0 (mkConfig "s3://results/" None None (Some 0) None None None None) = true.
Proof. reflexivity. Qed.

(* ------------------------------------------------------------------ *)
(** ** Defaults *)

(** C9: a configuration that leaves the retry fields, the database and the
    work group unspecified gets 200, 10000, 10, ["default"] and ["primary"]:
    in the delay and the retry test of every attempt and in the request
    built by [startQuery], which is the request of every command the
    operation sends. *)
Theorem defaults_when_unspecified
    (query : string) (config : AthenaRequestConfig) (n : Z) :
  (baseRetryWait config = None -> retryWaitMax config = None ->
   startQuery_wait config n = Z.min (200 * 2 ^ n) 10000)
  /\ (baseRetryWait config = None ->
      stopQuery_wait config n = 200 ^ n
      /\ getQueryExecution_wait config n = 200 ^ n)
  /\ (retryCountMax config = None -> canRetry n config = (n <? 10))
  /\ (database config = None ->
      Database (startQuery_params query config) = "default")
  /\ (workGroup config = None ->
      WorkGroup (startQuery_params query config) = "primary")
  /\ (forall answers c,
        In c (sent (startQuery_run query config answers)) ->
        c = startQuery_params query config).
Proof.
  repeat split.
  - intros Hb Hm. unfold startQuery_wait. rewrite Hb, Hm. reflexivity.
  - unfold stopQuery_wait. rewrite H. reflexivity.
  - unfold getQueryExecution_wait. rewrite H. reflexivity.
  - intro H. unfold canRetry. rewrite H. reflexivity.
  - intro H. simpl. rewrite H. reflexivity.
  - intro H. simpl. rewrite H. reflexivity.
  - intros answers c. unfold startQuery_run.
    apply loopFunc_sent. simpl. intros ? [].
Qed.

Lemma defaults_when_unspecified_witness :
  startQuery_wait plainConfig 5 = 6400
  /\ stopQuery_wait plainConfig 1 = 200
  /\ canRetry 10 plainConfig = false
  /\ Database (startQuery_params "SELECT 1" plainConfig) = "default"
  /\ WorkGroup (startQuery_params "SELECT 1" plainConfig) = "primary".
Proof.
  pose proof (defaults_when_unspecified "SELECT 1" plainConfig 5)
    as (Hwait & _ & _ & Hdb & Hwg & _).
  pose proof (defaults_when_unspecified "SELECT 1" plainConfig 1)
    as (_ & Hstop & _).
  pose proof (defaults_when_unspecified "SELECT 1" plainConfig 10)
    as (_ & _ & Hcan & _).
  split; [rewrite (Hwait eq_refl eq_refl); reflexivity|].
  split; [rewrite (proj1 (Hstop eq_refl)); reflexivity|].
  split; [rewrite (Hcan eq_refl); reflexivity|].
  split; [exact (Hdb eq_refl) | exact (Hwg eq_refl)].
Defined.

(* ------------------------------------------------------------------ *)
(** ** [checkQuery] *)

Lemma case_label_eq (s lit : string) : case_label (Some s) lit = true <-> s = lit.
Proof. simpl. apply String.eqb_eq. Qed.

Lemma case_label_neq (s lit : string) : s <> lit -> case_label (Some s) lit = false.
Proof. simpl. apply String.eqb_neq. Qed.

(** The callback that [checkQuery] gives to [then], on an execution whose
    status carries the raw state [state], settles the promise in one of
    these ways: QUEUED and RUNNING fulfil with [false]; SUCCEEDED fulfils with
    [true]; FAILED rejects with the state change reason, or with
    'FAILED: Execution Error' when the reason is absent or empty; CANCELLED
    rejects with 'FAILED: Query CANCELLED'; every other string rejects with
    'FAILED: UnKnown State ' followed by the string itself. *)
Theorem checkQuery_classification (state : string) (reason : option string) :
  let p := checkQuery_on
             (Fulfilled (Some (mkQueryExecution (Some (mkStatus (Some state) reason))))) in
  p <> Pending
  /\ (state = "QUEUED" \/ state = "RUNNING" -> p = Fulfilled false)
  /\ (state = "SUCCEEDED" -> p = Fulfilled true)
  /\ (state = "FAILED" ->
      (forall r, reason = Some r -> r <> "" -> p = Rejected (Error r))
      /\ (reason = None \/ reason = Some "" ->
          p = Rejected (Error "FAILED: Execution Error")))
  /\ (state = "CANCELLED" -> p = Rejected (Error "FAILED: Query CANCELLED"))
  /\ (state <> "QUEUED" -> state <> "RUNNING" -> state <> "SUCCEEDED" ->
      state <> "FAILED" -> state <> "CANCELLED" ->
      p = Rejected (Error ("FAILED: UnKnown State " ++ state))).
Proof.
  cbv zeta.
  assert (Hunknown :
    state <> "QUEUED" -> state <> "RUNNING" -> state <> "SUCCEEDED" ->
    state <> "FAILED" -> state <> "CANCELLED" ->
    checkQuery_on
      (Fulfilled (Some (mkQueryExecution (Some (mkStatus (Some state) reason)))))
    = Rejected (Error ("FAILED: UnKnown State " ++ state))).
  { intros H1 H2 H3 H4 H5.
    unfold checkQuery_on, checkQuery_then, classify.
    cbn [Status State StateChangeReason].
    rewrite (case_label_neq _ _ H1), (case_label_neq _ _ H2),
            (case_label_neq _ _ H3), (case_label_neq _ _ H4),
            (case_label_neq _ _ H5).
    reflexivity. }
  assert (Hfailed : state = "FAILED" ->
    checkQuery_on
      (Fulfilled (Some (mkQueryExecution (Some (mkStatus (Some state) reason)))))
    = Rejected (Error (str_or reason "FAILED: Execution Error"))).
  { intros ->. reflexivity. }
  split; [|split; [|split; [|split; [|split]]]].
  - destruct (String.eqb_spec state "QUEUED") as [->|H1]; [discriminate|].
    destruct (String.eqb_spec state "RUNNING") as [->|H2]; [discriminate|].
    destruct (String.eqb_spec state "SUCCEEDED") as [->|H3]; [discriminate|].
    destruct (String.eqb_spec state "FAILED") as [->|H4].
    { rewrite (Hfailed eq_refl). discriminate. }
    destruct (String.eqb_spec state "CANCELLED") as [->|H5]; [discriminate|].
    rewrite (Hunknown H1 H2 H3 H4 H5). discriminate.
  - intros [-> | ->]; reflexivity.
  - intros ->. reflexivity.
  - intro Hs. rewrite (Hfailed Hs). split.
    + intros r -> Hr. destruct r; [contradiction|reflexivity].
    + intros [-> | ->]; reflexivity.
  - intros ->. reflexivity.
  - exact Hunknown.
Qed.

Lemma checkQuery_classification_witness :
  checkQuery_on
    (Fulfilled (Some (mkQueryExecution (Some (mkStatus (Some "PAUSED") None)))))
    = Rejected (Error "FAILED: UnKnown State PAUSED")
  /\ checkQuery_on
       (Fulfilled (Some (mkQueryExecution
          (Some (mkStatus (Some "FAILED") (Some "SYNTAX_ERROR: line 1:8"))))))
     = Rejected (Error "SYNTAX_ERROR: line 1:8")
  /\ checkQuery_on
       (Fulfilled (Some (mkQueryExecution (Some (mkStatus (Some "RUNNING") None)))))
     = Fulfilled false.
Proof.
  split; [|split].
  - apply (proj2 (proj2 (proj2 (proj2 (proj2
             (checkQuery_classification "PAUSED" None))))));
      discriminate.
  - apply (proj1 (proj1 (proj2 (proj2 (proj2
             (checkQuery_classification "FAILED" (Some "SYNTAX_ERROR: line 1:8")))))
             eq_refl) "SYNTAX_ERROR: line 1:8" eq_refl).
    discriminate.
  - apply (proj1 (proj2 (checkQuery_classification "RUNNING" None))).
    right. reflexivity.
Defined.

(** C5, as the code has it: [checkQuery] chains on the promise of
    [getQueryExecution], which is never settled.  The service reports the
    query as SUCCEEDED, RUNNING, FAILED, CANCELLED or in an unknown state;
    [loopFunc] obtains the execution, and the [then] callback would classify
    it as stated, but the callback never runs: the promise of [checkQuery]
    stays pending, neither fulfilled with [true] or [false] nor rejected. *)
Theorem checkQuery_never_settles :
  let reported state reason :=
    [Ok (mkGetOutput (Some (mkQueryExecution (Some (mkStatus (Some state) reason)))))] in
  checkQuery "query-1" plainConfig (reported "SUCCEEDED" None) = Pending
  /\ checkQuery "query-1" plainConfig (reported "SUCCEEDED" None) <> Fulfilled true
  /\ checkQuery "query-1" plainConfig (reported "RUNNING" None) <> Fulfilled false
  /\ checkQuery "query-1" plainConfig (reported "FAILED" (Some "SYNTAX_ERROR: line 1:8"))
     <> Rejected (Error "SYNTAX_ERROR: line 1:8")
  /\ checkQuery "query-1" plainConfig (reported "CANCELLED" None)
     <> Rejected (Error "FAILED: Query CANCELLED")
  /\ checkQuery "query-1" plainConfig (reported "PAUSED" None)
     <> Rejected (Error "FAILED: UnKnown State PAUSED")
  /\ completions (getQueryExecution_run "query-1" plainConfig (reported "SUCCEEDED" None))
     = [Returned (Value (Some (mkQueryExecution (Some (mkStatus (Some "SUCCEEDED") None)))))]
  /\ checkQuery_on
       (Fulfilled (Some (mkQueryExecution (Some (mkStatus (Some "SUCCEEDED") None)))))
     = Fulfilled true.
Proof.
  cbv zeta. rewrite !checkQuery_pending.
  repeat split; discriminate.
Qed.

(* ------------------------------------------------------------------ *)
(** ** [createClient] *)

Lemma undefined_or_empty_spec (s : option string) :
  undefined_or_empty s = true <-> s = None \/ s = Some "".
Proof.
  destruct s as [[|c v]|]; simpl; split; auto.
  - discriminate.
  - intros [H|H]; discriminate.
Qed.

(** C7: [createClient] throws, having constructed nothing, when the client
    configuration is missing or its [bucketUri] is undefined or empty
    ('bucket uri required'), and otherwise when the AWS configuration is
    missing or its [region] is undefined or empty ('region required').  In
    every other case it returns a client, built on the two service handles
    it has constructed. *)
Theorem createClient_fails_fast
    (clientConfig : option AthenaClientConfig) (awsConfig : option AwsConfig) :
  (no_bucketUri clientConfig ->
   createClient clientConfig awsConfig = ([], Fail (Error "bucket uri required")))
  /\ (~ no_bucketUri clientConfig -> no_region awsConfig ->
      createClient clientConfig awsConfig = ([], Fail (Error "region required")))
  /\ (~ no_bucketUri clientConfig -> ~ no_region awsConfig ->
      exists client,
        snd (createClient clientConfig awsConfig) = Ok client
        /\ Some (client_config client) = clientConfig
        /\ fst (createClient clientConfig awsConfig)
           = [NewAwsAthenaClient (athena (client_request client));
              NewS3 (s3 (client_request client))]).
Proof.
  unfold createClient, no_bucketUri, no_region.
  destruct clientConfig as [cc|].
  2:{ split; [reflexivity|]. split; intro H; exfalso; apply H; exact I. }
  destruct (undefined_or_empty (client_bucketUri cc)) eqn:Hb.
  { apply undefined_or_empty_spec in Hb.
    split; [reflexivity|]. split; intro H; contradiction. }
  assert (Hb' : ~ (client_bucketUri cc = None \/ client_bucketUri cc = Some "")).
  { rewrite <- undefined_or_empty_spec, Hb. discriminate. }
  split; [intro H; contradiction|].
  destruct awsConfig as [ac|].
  2:{ split; [reflexivity|]. intros _ H. exfalso. apply H. exact I. }
  destruct (undefined_or_empty (region ac)) eqn:Hr.
  { apply undefined_or_empty_spec in Hr.
    split; [reflexivity|]. intros _ H. contradiction. }
  split.
  - intros _ H. apply undefined_or_empty_spec in H. rewrite Hr in H. discriminate.
  - intros _ _. eexists. simpl. split; [reflexivity|]. split; reflexivity.
Qed.

Lemma createClient_fails_fast_witness :
  (no_bucketUri (Some (mkClientConfig (Some "")))
   /\ createClient (Some (mkClientConfig (Some "")))
        (Some (mkAwsConfig (Some "us-east-1") None None))
      = ([], Fail (Error "bucket uri required")))
  /\ (no_region None
      /\ createClient (Some (mkClientConfig (Some "s3://results/"))) None
         = ([], Fail (Error "region required")))
  /\ exists client,
       snd (createClient (Some (mkClientConfig (Some "s3://results/")))
              (Some (mkAwsConfig (Some "us-east-1") None None)))
       = Ok client.
Proof.
  pose (good := Some (mkClientConfig (Some "s3://results/"))).
  pose (aws := Some (mkAwsConfig (Some "us-east-1") None None)).
  assert (Hb : ~ no_bucketUri good).
  { intros [H|H]; discriminate H. }
  assert (Hr : ~ no_region aws).
  { intros [H|H]; discriminate H. }
  split; [|split].
  - assert (H : no_bucketUri (Some (mkClientConfig (Some "")))).
    { right. reflexivity. }
    split; [exact H|].
    exact (proj1 (createClient_fails_fast (Some (mkClientConfig (Some ""))) aws) H).
  - split; [exact I|].
    exact (proj1 (proj2 (createClient_fails_fast good None)) Hb I).
  - destruct (proj2 (proj2 (createClient_fails_fast good aws)) Hb Hr)
      as (client & Hclient & _).
    exists client. exact Hclient.
Defined.

(* ------------------------------------------------------------------ *)
(** ** Strings *)

Lemma replace_eq (pat rep s : string) :
  replace pat rep s =
  if prefix pat s then rep ++ drop (length pat) s
  else match s with
       | EmptyString => EmptyString
       | String c s' => String c (replace pat rep s')
       end.
Proof. destruct s; reflexivity. Qed.

Lemma prefix_append (pat s : string) : prefix pat (pat ++ s) = true.
Proof.
  induction pat as [|a pat IH]; simpl.
  - destruct s; reflexivity.
  - destruct (ascii_dec a a) as [_|H]; [exact IH|contradiction].
Qed.

Lemma drop_append (pat s : string) : drop (length pat) (pat ++ s) = s.
Proof. induction pat as [|a pat IH]; simpl; [reflexivity|exact IH]. Qed.

Lemma prefix_split (pat s : string) :
  prefix pat s = true -> s = pat ++ drop (length pat) s.
Proof.
  revert s. induction pat as [|a pat IH]; intros s H; simpl.
  - reflexivity.
  - destruct s as [|b s]; simpl in H; [discriminate|].
    destruct (ascii_dec a b) as [->|_]; [|discriminate].
    f_equal. apply IH. exact H.
Qed.

Lemma append_assoc (a b c : string) : (a ++ b) ++ c = a ++ b ++ c.
Proof. induction a as [|x a IH]; simpl; [reflexivity|rewrite IH; reflexivity]. Qed.

(** [replace] takes out the leftmost occurrence. *)
Lemma replace_first_occurrence (pat rep s pre post : string) :
  first_occurrence pat s pre post -> replace pat rep s = pre ++ rep ++ post.
Proof.
  revert s. induction pre as [|c pre IH]; intros s [Hs Hmin].
  - simpl in Hs. subst s. rewrite replace_eq, prefix_append, drop_append.
    reflexivity.
  - simpl in Hs. subst s. rewrite replace_eq.
    destruct (prefix pat (String c (pre ++ pat ++ post))) eqn:Hp.
    + apply prefix_split in Hp.
      specialize (Hmin EmptyString _ Hp). simpl in Hmin. lia.
    + simpl. f_equal. apply IH. split; [reflexivity|].
      intros pre' post' H.
      specialize (Hmin (String c pre') post').
      simpl in Hmin. rewrite <- H in Hmin.
      specialize (Hmin eq_refl). lia.
Qed.

(** Without an occurrence, [replace] changes nothing. *)
Lemma replace_absent (pat rep s : string) :
  (forall pre post, s <> pre ++ pat ++ post) -> replace pat rep s = s.
Proof.
  induction s as [|c s IH]; intro Habs; rewrite replace_eq.
  - destruct (prefix pat EmptyString) eqn:Hp; [|reflexivity].
    apply prefix_split in Hp. exfalso.
    apply (Habs EmptyString (drop (length pat) EmptyString)). exact Hp.
  - destruct (prefix pat (String c s)) eqn:Hp.
    + apply prefix_split in Hp. exfalso.
      apply (Habs EmptyString (drop (length pat) (String c s))). exact Hp.
    + f_equal. apply IH. intros pre post H.
      apply (Habs (String c pre) post). simpl. rewrite H. reflexivity.
Qed.

Lemma split_not_nil (sep : ascii) (s : string) : split sep s <> [].
Proof.
  destruct s as [|c s]; simpl; [discriminate|].
  destruct (Ascii.eqb c sep); [discriminate|].
  destruct (split sep s); discriminate.
Qed.

(** A string without separator is its only segment. *)
Lemma split_no_sep (sep : ascii) (s : string) :
  has_char sep s = false -> split sep s = [s].
Proof.
  induction s as [|c s IH]; simpl; intro H; [reflexivity|].
  apply orb_false_iff in H. destruct H as [Hc Hs].
  rewrite Hc, (IH Hs). reflexivity.
Qed.

(** The first segment ends at the first separator. *)
Lemma split_at_first_sep (sep : ascii) (b k : string) :
  has_char sep b = false ->
  split sep (b ++ String sep k) = b :: split sep k.
Proof.
  induction b as [|c b IH]; simpl; intro H.
  - rewrite Ascii.eqb_refl. reflexivity.
  - apply orb_false_iff in H. destruct H as [Hc Hb].
    rewrite Hc, (IH Hb). reflexivity.
Qed.

(** Joining the segments with the separator gives the string back. *)
Lemma join_split (sep : ascii) (s : string) :
  join (String sep EmptyString) (split sep s) = s.
Proof.
  unfold join. induction s as [|c s IH]; simpl; [reflexivity|].
  destruct (Ascii.eqb_spec c sep) as [->|Hc].
  - destruct (split sep s) as [|seg segs] eqn:Hsplit.
    + exfalso. exact (split_not_nil sep s Hsplit).
    + cbn [concat]. simpl. f_equal. exact IH.
  - destruct (split sep s) as [|seg segs] eqn:Hsplit.
    + exfalso. exact (split_not_nil sep s Hsplit).
    + destruct segs as [|seg' segs].
      * simpl in *. f_equal. exact IH.
      * cbn [concat] in *. simpl. f_equal. exact IH.
Qed.

Lemma str_or_empty (s : string) : str_or (Some s) "" = s.
Proof. destruct s; reflexivity. Qed.

(** [getResultsStream_params] in terms of what is left once the scheme has
    been taken out. *)
Lemma getResultsStream_params_eq (s3Uri : string) :
  getResultsStream_params s3Uri =
  {| Bucket := hd "" (split "/" (replace "s3://" "" s3Uri));
     Key := join "/" (tl (split "/" (replace "s3://" "" s3Uri))) |}.
Proof.
  unfold getResultsStream_params.
  destruct (split "/" (replace "s3://" "" s3Uri)) as [|seg segs] eqn:Hsplit.
  - exfalso. exact (split_not_nil _ _ Hsplit).
  - unfold shift. cbn [hd tl]. rewrite str_or_empty. reflexivity.
Qed.

Lemma replace_scheme (rest : string) : replace "s3://" "" ("s3://" ++ rest) = rest.
Proof. rewrite replace_eq, prefix_append, drop_append. reflexivity. Qed.

(* ------------------------------------------------------------------ *)
(** ** [getResultsStream] *)

(** C8: for a locator that starts with the scheme, the bucket is the first
    segment of what follows the scheme and the key is the other segments
    joined with ['/'] again.  So a locator made of the scheme, a bucket
    without ['/'], a ['/'] and any key at all gives back that bucket and
    that key, separators included; the locator
    's3://my-bucket/path/to/object.csv' gives 'my-bucket' and
    'path/to/object.csv'.  These are the bucket and key of the request sent
    to the object store. *)
Theorem getResultsStream_bucket_and_key (bucket key : string) :
  (has_char "/" bucket = false ->
   getResultsStream_params ("s3://" ++ bucket ++ "/" ++ key)
   = {| Bucket := bucket; Key := key |})
  /\ (forall rest,
        getResultsStream_params ("s3://" ++ rest)
        = {| Bucket := hd "" (split "/" rest);
             Key := join "/" (tl (split "/" rest)) |})
  /\ getResultsStream_params "s3://my-bucket/path/to/object.csv"
     = {| Bucket := "my-bucket"; Key := "path/to/object.csv" |}
  /\ (forall (store : ObjectStore) data,
        store {| Bucket := "my-bucket"; Key := "path/to/object.csv" |}
          = Ok (Some data) ->
        getResultsStream store "s3://my-bucket/path/to/object.csv"
          = Fulfilled data).
Proof.
  split; [|split; [|split]].
  - intro Hb.
    rewrite getResultsStream_params_eq, replace_scheme.
    change (bucket ++ "/" ++ key) with (bucket ++ String "/" key).
    rewrite (split_at_first_sep "/" bucket key Hb).
    cbn [hd tl]. rewrite (join_split "/" key). reflexivity.
  - intro rest.
    rewrite getResultsStream_params_eq, replace_scheme. reflexivity.
  - reflexivity.
  - intros store data H. unfold getResultsStream.
    change (getResultsStream_params "s3://my-bucket/path/to/object.csv")
      with {| Bucket := "my-bucket"; Key := "path/to/object.csv" |}.
    rewrite H. reflexivity.
Qed.

Lemma getResultsStream_bucket_and_key_witness :
  has_char "/" "athena-results" = false
  /\ getResultsStream_params "s3://athena-results/2024/01/15/run.csv"
     = {| Bucket := "athena-results"; Key := "2024/01/15/run.csv" |}.
Proof.
  split; [reflexivity|].
  exact (proj1 (getResultsStream_bucket_and_key "athena-results" "2024/01/15/run.csv")
           eq_refl).
Defined.

(** C10: the parsing gives a bucket and a key for every string.  It takes
    out the leftmost occurrence of 's3://', wherever it stands, and nothing
    else; a string without occurrence is kept whole.  When nothing is left
    the bucket is empty (and so is the key), and when what is left has no
    ['/'] the key is empty and the bucket is all that is left. *)
Theorem getResultsStream_params_total (s3Uri : string) :
  (exists bucket key,
     getResultsStream_params s3Uri = {| Bucket := bucket; Key := key |})
  /\ (forall pre post,
        first_occurrence "s3://" s3Uri pre post ->
        replace "s3://" "" s3Uri = pre ++ post)
  /\ ((forall pre post, s3Uri <> pre ++ "s3://" ++ post) ->
      replace "s3://" "" s3Uri = s3Uri)
  /\ (replace "s3://" "" s3Uri = "" ->
      getResultsStream_params s3Uri = {| Bucket := ""; Key := "" |})
  /\ (has_char "/" (replace "s3://" "" s3Uri) = false ->
      getResultsStream_params s3Uri
      = {| Bucket := replace "s3://" "" s3Uri; Key := "" |}).
Proof.
  split; [|split; [|split; [|split]]].
  - rewrite getResultsStream_params_eq. eexists. eexists. reflexivity.
  - intros pre post H.
    rewrite (replace_first_occurrence "s3://" "" s3Uri pre post H). reflexivity.
  - apply replace_absent.
  - intro H. rewrite getResultsStream_params_eq, H. reflexivity.
  - intro H. rewrite getResultsStream_params_eq, (split_no_sep _ _ H). reflexivity.
Qed.

Lemma getResultsStream_params_total_witness :
  (first_occurrence "s3://" "xs3://b/s3://k" "x" "b/s3://k"
   /\ replace "s3://" "" "xs3://b/s3://k" = "xb/s3://k")
  /\ ((forall pre post, "b/k" <> pre ++ "s3://" ++ post)
      /\ replace "s3://" "" "b/k" = "b/k")
  /\ (replace "s3://" "" "s3://" = ""
      /\ getResultsStream_params "s3://" = {| Bucket := ""; Key := "" |})
  /\ (has_char "/" (replace "s3://" "" "s3://bucket") = false
      /\ getResultsStream_params "s3://bucket" = {| Bucket := "bucket"; Key := "" |}).
Proof.
  assert (H1 : first_occurrence "s3://" "xs3://b/s3://k" "x" "b/s3://k").
  { split; [reflexivity|].
    intros [|c pre'] post' H; simpl; [discriminate H|lia]. }
  assert (H2 : forall pre post, "b/k" <> pre ++ "s3://" ++ post).
  { intros [|c0 [|c1 [|c2 [|c3 pre]]]] post H; simpl in H; discriminate H. }
  split; [|split; [|split]].
  - split; [exact H1|].
    exact (proj1 (proj2 (getResultsStream_params_total "xs3://b/s3://k")) "x" "b/s3://k" H1).
  - split; [exact H2|].
    exact (proj1 (proj2 (proj2 (getResultsStream_params_total "b/k"))) H2).
  - split; [reflexivity|].
    exact (proj1 (proj2 (proj2 (proj2 (getResultsStream_params_total "s3://")))) eq_refl).
  - split; [reflexivity|].
    exact (proj2 (proj2 (proj2 (proj2 (getResultsStream_params_total "s3://bucket")))) eq_refl).
Defined.

(* ------------------------------------------------------------------ *)
(** ** The shape of every run *)

Lemma counts_snoc (from : Z) (k : nat) :
  counts from (S k) = (counts from k ++ [from + Z.of_nat k])%list.
Proof.
  revert from. induction k as [|k IH]; intro from.
  - simpl. rewrite Z.add_0_r. reflexivity.
  - change (counts from (S (S k))) with (from :: counts (from + 1) (S k)).
    rewrite IH. simpl. do 2 f_equal. f_equal. lia.
Qed.

Lemma counts_nth (from : Z) (k i : nat) (x : Z) :
  nth_error (counts from k) i = Some x -> x = from + Z.of_nat i /\ (i < k)%nat.
Proof.
  revert from i. induction k as [|k IH]; intros from i H.
  - destruct i; discriminate H.
  - destruct i as [|i]; simpl in H.
    + injection H as <-. split; lia.
    + apply IH in H. destruct H as [-> Hi]. split; lia.
Qed.

Lemma retried_zero {R C V : Type} (command : C) (wait_of : Z -> Z) (w : run R C V) :
  retried command wait_of 0 w = w.
Proof.
  destruct w as [o rc s t c]. unfold retried. simpl.
  rewrite Z.add_0_r, !app_nil_r. reflexivity.
Qed.

Lemma retried_step {R C V : Type} (command : C) (wait_of : Z -> Z) (k : nat)
    (w : run R C V) :
  retried command wait_of k
    (complete (Returned (Timeout (wait_of (retryCount w))))
       (setTimeout (wait_of (retryCount w)) (increment (send command w))))
  = retried command wait_of (S k) w.
Proof.
  unfold retried. simpl. rewrite <- !app_assoc. simpl.
  f_equal. lia.
Qed.

Section RetryLoopShape.
Context {R C D V : Type}.
Variable config : AthenaRequestConfig.
Variable command : C.
Variable returned : D -> V.
Variable wait_of : Z -> Z.

(** Transient errors within the bound are all retried. *)
Lemma loopFunc_after_transients (errs : list JsError) (later : list (outcome D))
    (w : run R C V) :
  Forall (fun e => isRetryException e = true) errs ->
  retryCount w + Z.of_nat (List.length errs) <= maxAttempts config ->
  loopFunc config command returned wait_of (map Fail errs ++ later) w
  = loopFunc config command returned wait_of later
      (retried command wait_of (List.length errs) w).
Proof.
  revert w. induction errs as [|e errs IH]; intros w Hall Hle.
  - simpl. rewrite retried_zero. reflexivity.
  - inversion Hall as [|? ? He Hall']; subst.
    cbn [List.length] in Hle. rewrite Nat2Z.inj_succ in Hle.
    cbn [map app]. rewrite loopFunc_retries.
    + rewrite IH; [|exact Hall'|simpl; lia].
      rewrite retried_step. reflexivity.
    + rewrite He. simpl. apply canRetry_below. lia.
Qed.

(** Every run is a number of retries within the bound, followed by one
    last call. *)
Lemma loopFunc_shape (answers : list (outcome D)) (w : run R C V) :
  exists (k : nat) (e : ending D),
    loopFunc config command returned wait_of answers w
    = last_call command returned e (retried command wait_of k w)
    /\ Z.of_nat k <= Z.max 0 (maxAttempts config - retryCount w).
Proof.
  revert w. induction answers as [|a later IH]; intro w.
  - exists O, Unanswered. rewrite retried_zero. split; [reflexivity|lia].
  - destruct a as [data|err].
    + exists O, (Answered data). rewrite retried_zero. split; [reflexivity|lia].
    + destruct (isRetryException err && canRetry (retryCount w) config) eqn:Hc.
      * rewrite loopFunc_retries by exact Hc.
        apply andb_true_iff in Hc. destruct Hc as [_ Hc].
        apply canRetry_below in Hc.
        match goal with |- context [loopFunc _ _ _ _ later ?w1] =>
          destruct (IH w1) as (k & e & Hrun & Hk) end.
        exists (S k), e. rewrite Hrun, retried_step.
        split; [reflexivity|]. simpl in Hk. lia.
      * rewrite loopFunc_gives_up by exact Hc.
        exists O, (GaveUp err). rewrite retried_zero. split; [reflexivity|lia].
Qed.
End RetryLoopShape.

Lemma last_call_fields {R C D V : Type} (command : C) (returned : D -> V)
    (e : ending D) (w : run R C V) :
  timers (last_call command returned e w) = timers w
  /\ retryCount (last_call command returned e w) = retryCount w
  /\ sent (last_call command returned e w) = (sent w ++ [command])%list.
Proof. destruct e; repeat split. Qed.

(** The fields of a run that started from [newRun]. *)
Lemma run_fields {R C D V : Type} (config : AthenaRequestConfig) (command : C)
    (returned : D -> V) (wait_of : Z -> Z) (answers : list (outcome D)) :
  let r := loopFunc (R := R) config command returned wait_of answers newRun in
  exists k : nat,
    timers r = map wait_of (counts 0 k)
    /\ retryCount r = Z.of_nat k
    /\ sent r = repeat command (S k)
    /\ (k <= Z.to_nat (maxAttempts config))%nat.
Proof.
  cbv zeta.
  destruct (loopFunc_shape (R := R) config command returned wait_of answers newRun)
    as (k & e & Hrun & Hk).
  exists k. rewrite Hrun.
  destruct (last_call_fields command returned e
              (retried (R := R) (V := V) command wait_of k newRun))
    as (Ht & Hc & Hs).
  rewrite Ht, Hc, Hs. simpl.
  split; [reflexivity|]. split; [reflexivity|]. split.
  - rewrite <- repeat_cons. reflexivity.
  - simpl in Hk. lia.
Qed.

Lemma transient_all (errs : list JsError) :
  Forall transient errs -> Forall (fun e => isRetryException e = true) errs.
Proof.
  apply Forall_impl. intros e H. apply isRetryException_transient. exact H.
Qed.

Lemma timers_nth {R C D V : Type} (config : AthenaRequestConfig) (command : C)
    (returned : D -> V) (wait_of : Z -> Z) (answers : list (outcome D))
    (i : nat) (d : Z) :
  nth_error (timers (loopFunc (R := R) config command returned wait_of answers newRun)) i
    = Some d ->
  d = wait_of (Z.of_nat i).
Proof.
  destruct (run_fields (R := R) config command returned wait_of answers)
    as (k & Ht & _).
  rewrite Ht, nth_error_map.
  destruct (nth_error (counts 0 k) i) as [x|] eqn:Hx; [|discriminate].
  apply counts_nth in Hx. destruct Hx as [-> _].
  simpl. intro H. injection H as <-. reflexivity.
Qed.

(** The number of retries of one operation never exceeds
    [config.retryCountMax || 10], whatever the service answers; a negative
    bound means no retry at all. *)
Theorem retries_within_bound (query queryId : string) (config : AthenaRequestConfig)
    (started : list (outcome StartQueryExecutionOutput))
    (stopped : list (outcome unit))
    (fetched : list (outcome GetQueryExecutionOutput)) :
  (List.length (timers (startQuery_run query config started))
   <= Z.to_nat (maxAttempts config))%nat
  /\ (List.length (timers (stopQuery_run queryId config stopped))
      <= Z.to_nat (maxAttempts config))%nat
  /\ (List.length (timers (getQueryExecution_run queryId config fetched))
      <= Z.to_nat (maxAttempts config))%nat.
Proof.
  unfold startQuery_run, stopQuery_run, getQueryExecution_run.
  split; [|split].
  - destruct (run_fields (R := option string) config (startQuery_params query config)
                QueryExecutionId (startQuery_wait config) started)
      as (k & Ht & _ & _ & Hk).
    rewrite Ht, length_map, counts_length. exact Hk.
  - destruct (run_fields (R := unit) config {| QueryExecutionId_ := queryId |}
                (fun _ : unit => tt) (stopQuery_wait config) stopped)
      as (k & Ht & _ & _ & Hk).
    rewrite Ht, length_map, counts_length. exact Hk.
  - destruct (run_fields (R := option QueryExecution) config
                {| QueryExecutionId_ := queryId |}
                QueryExecution_ (getQueryExecution_wait config) fetched)
      as (k & Ht & _ & _ & Hk).
    rewrite Ht, length_map, counts_length. exact Hk.
Qed.

(** Each operation sends its one request once per attempt: the commands
    sent are copies of the request built before the loop, one more than
    there are timers, and [retryCount] ends as the number of timers. *)
Theorem one_command_per_attempt (query queryId : string) (config : AthenaRequestConfig)
    (started : list (outcome StartQueryExecutionOutput))
    (stopped : list (outcome unit))
    (fetched : list (outcome GetQueryExecutionOutput)) :
  (let r := startQuery_run query config started in
   sent r = repeat (startQuery_params query config) (S (List.length (timers r)))
   /\ retryCount r = Z.of_nat (List.length (timers r)))
  /\ (let r := stopQuery_run queryId config stopped in
      sent r = repeat {| QueryExecutionId_ := queryId |} (S (List.length (timers r)))
      /\ retryCount r = Z.of_nat (List.length (timers r)))
  /\ (let r := getQueryExecution_run queryId config fetched in
      sent r = repeat {| QueryExecutionId_ := queryId |} (S (List.length (timers r)))
      /\ retryCount r = Z.of_nat (List.length (timers r))).
Proof.
  cbv zeta. unfold startQuery_run, stopQuery_run, getQueryExecution_run.
  split; [|split].
  - destruct (run_fields (R := option string) config (startQuery_params query config)
                QueryExecutionId (startQuery_wait config) started)
      as (k & Ht & Hc & Hs & _).
    rewrite Hs, Hc, Ht, length_map, counts_length. split; reflexivity.
  - destruct (run_fields (R := unit) config {| QueryExecutionId_ := queryId |}
                (fun _ : unit => tt) (stopQuery_wait config) stopped)
      as (k & Ht & Hc & Hs & _).
    rewrite Hs, Hc, Ht, length_map, counts_length. split; reflexivity.
  - destruct (run_fields (R := option QueryExecution) config
                {| QueryExecutionId_ := queryId |}
                QueryExecution_ (getQueryExecution_wait config) fetched)
      as (k & Ht & Hc & Hs & _).
    rewrite Hs, Hc, Ht, length_map, counts_length. split; reflexivity.
Qed.

(** In every run of [startQuery], whatever the service answers, the timer
    number [i] (from 0) carries the capped doubling delay of attempt [i]. *)
Theorem startQuery_timer_values (query : string) (config : AthenaRequestConfig)
    (answers : list (outcome StartQueryExecutionOutput)) (i : nat) (d : Z) :
  nth_error (timers (startQuery_run query config answers)) i = Some d ->
  d = Z.min (num_or (baseRetryWait config) defaultBaseRetryWait * 2 ^ Z.of_nat i)
            (num_or (retryWaitMax config) defaultRetryWaitMax).
Proof.
  unfold startQuery_run. intro H. apply timers_nth in H. exact H.
Qed.

Lemma startQuery_timer_values_witness :
  nth_error
    (timers (startQuery_run "SELECT 1" plainConfig
               [Fail throttled; Fail throttled; Fail accessDenied])) 1 = Some 400
  /\ 400 = Z.min (num_or (baseRetryWait plainConfig) defaultBaseRetryWait * 2 ^ Z.of_nat 1)
                 (num_or (retryWaitMax plainConfig) defaultRetryWaitMax).
Proof.
  split; [reflexivity|].
  apply (startQuery_timer_values "SELECT 1" plainConfig
           [Fail throttled; Fail throttled; Fail accessDenied] 1 400).
  reflexivity.
Defined.

(** In every run of [stopQuery] and of [getQueryExecution] the first delay
    is 1 ms whatever the configuration, and the timer number [i] (from 0)
    carries the base delay to the power [i], with no cap, as long as that
    power is an integer a double holds exactly (at most 2^53 in absolute
    value); beyond that [Math.pow] may round, and nothing is stated. *)
Theorem stop_and_get_timer_values (queryId : string) (config : AthenaRequestConfig)
    (stopped : list (outcome unit))
    (fetched : list (outcome GetQueryExecutionOutput)) (i : nat) (d : Z) :
  (nth_error (timers (stopQuery_run queryId config stopped)) i = Some d ->
   (i = O -> d = 1)
   /\ (Z.abs (num_or (baseRetryWait config) defaultBaseRetryWait ^ Z.of_nat i) <= 2 ^ 53 ->
       d = num_or (baseRetryWait config) defaultBaseRetryWait ^ Z.of_nat i))
  /\ (nth_error (timers (getQueryExecution_run queryId config fetched)) i = Some d ->
      (i = O -> d = 1)
      /\ (Z.abs (num_or (baseRetryWait config) defaultBaseRetryWait ^ Z.of_nat i) <= 2 ^ 53 ->
          d = num_or (baseRetryWait config) defaultBaseRetryWait ^ Z.of_nat i)).
Proof.
  unfold stopQuery_run, getQueryExecution_run.
  split; intro H; apply timers_nth in H; subst d;
    (split; [intros ->; apply Z.pow_0_r|intros _; reflexivity]).
Qed.

Lemma stop_and_get_timer_values_witness :
  (nth_error (timers (stopQuery_run "query-1" plainConfig
                        [Fail throttled; Fail throttled; Ok tt])) 1 = Some 200
   /\ Z.abs (num_or (baseRetryWait plainConfig) defaultBaseRetryWait ^ Z.of_nat 1) <= 2 ^ 53
   /\ 200 = num_or (baseRetryWait plainConfig) defaultBaseRetryWait ^ Z.of_nat 1)
  /\ (nth_error (timers (getQueryExecution_run "query-1"
                           (mkConfig "s3://results/" (Some 5000) None None None None None None)
                           [Fail throttled; Ok (mkGetOutput None)])) 0 = Some 1
      /\ 1 = 1).
Proof.
  split.
  - assert (Hexact : Z.abs (num_or (baseRetryWait plainConfig) defaultBaseRetryWait
                            ^ Z.of_nat 1) <= 2 ^ 53).
    { vm_compute. discriminate. }
    split; [reflexivity|]. split; [exact Hexact|].
    exact (proj2 (proj1 (stop_and_get_timer_values "query-1" plainConfig
                           [Fail throttled; Fail throttled; Ok tt] [] 1 200)
                    eq_refl) Hexact).
  - split; [reflexivity|].
    exact (proj1 (proj2 (stop_and_get_timer_values "query-1"
                           (mkConfig "s3://results/" (Some 5000) None None None None None None)
                           [] [Fail throttled; Ok (mkGetOutput None)] 0 1)
                    eq_refl) eq_refl).
Defined.

(** When the service answers with transient errors, no more of them than
    the bound allows, and then accepts the query, [startQuery] retries after
    each error and its last call of [loopFunc] returns the execution id of
    that answer; what the service would have answered later plays no part. *)
Theorem startQuery_obtains_id (query : string) (config : AthenaRequestConfig)
    (errs : list JsError) (data : StartQueryExecutionOutput)
    (rest : list (outcome StartQueryExecutionOutput)) :
  Forall transient errs ->
  Z.of_nat (List.length errs) <= maxAttempts config ->
  let r := startQuery_run query config (map Fail errs ++ Ok data :: rest)%list in
  r = last_call (startQuery_params query config) QueryExecutionId (Answered data)
        (retried (startQuery_params query config) (startQuery_wait config)
           (List.length errs) newRun)
  /\ List.last (completions r) (Thrown accessDenied)
     = Returned (Value (QueryExecutionId data))
  /\ List.length (sent r) = S (List.length errs)
  /\ List.length (timers r) = List.length errs.
Proof.
  intros Hall Hle. cbv zeta. unfold startQuery_run.
  rewrite loopFunc_after_transients; [|apply transient_all; exact Hall|simpl; lia].
  split; [reflexivity|].
  simpl. rewrite last_last, !length_app, length_map, counts_length, repeat_length.
  simpl. repeat split; lia.
Qed.

Lemma startQuery_obtains_id_witness :
  Forall transient [throttled; throttled]
  /\ Z.of_nat (List.length [throttled; throttled]) <= maxAttempts plainConfig
  /\ List.last
       (completions
          (startQuery_run "SELECT 1" plainConfig
             (map Fail [throttled; throttled]
              ++ Ok (mkStartOutput (Some "query-1")) :: [Fail accessDenied])%list))
       (Thrown accessDenied)
     = Returned (Value (Some "query-1")).
Proof.
  assert (H1 : Forall transient [throttled; throttled]).
  { repeat constructor. }
  assert (H2 : Z.of_nat (List.length [throttled; throttled]) <= maxAttempts plainConfig).
  { vm_compute. discriminate. }
  split; [exact H1|]. split; [exact H2|].
  exact (proj1 (proj2 (startQuery_obtains_id "SELECT 1" plainConfig
                         [throttled; throttled] (mkStartOutput (Some "query-1"))
                         [Fail accessDenied] H1 H2))).
Defined.

(** After transient errors within the bound, the loop of any of the three
    operations gives up at the first error that is not transient or that
    finds the counter at the bound: this error is thrown, no timer is set
    for it and no further command is sent. *)
Theorem loop_gives_up_at (R C D V : Type) (config : AthenaRequestConfig)
    (command : C) (returned : D -> V) (wait_of : Z -> Z)
    (errs : list JsError) (err : JsError) (rest : list (outcome D)) :
  Forall transient errs ->
  Z.of_nat (List.length errs) <= maxAttempts config ->
  ~ transient err \/ Z.of_nat (List.length errs) = maxAttempts config ->
  let r := loopFunc (R := R) config command returned wait_of
             (map Fail errs ++ Fail err :: rest)%list newRun in
  r = last_call command returned (GaveUp err)
        (retried command wait_of (List.length errs) newRun)
  /\ List.last (completions r) (Returned (Timeout 0)) = Thrown err
  /\ List.length (timers r) = List.length errs
  /\ List.length (sent r) = S (List.length errs).
Proof.
  intros Hall Hle Hstop. cbv zeta.
  rewrite loopFunc_after_transients; [|apply transient_all; exact Hall|simpl; lia].
  rewrite loopFunc_gives_up.
  - split; [reflexivity|]. simpl.
    rewrite last_last, !length_app, length_map, counts_length, repeat_length.
    simpl. repeat split; lia.
  - simpl. apply not_true_is_false. rewrite andb_true_iff.
    rewrite isRetryException_transient, canRetry_below.
    intros [Ht Hlt]. destruct Hstop as [Hn|Heq]; [exact (Hn Ht)|lia].
Qed.

Lemma loop_gives_up_at_witness :
  Forall transient (repeat throttled 10)
  /\ Z.of_nat (List.length (repeat throttled 10)) <= maxAttempts plainConfig
  /\ (~ transient throttled
      \/ Z.of_nat (List.length (repeat throttled 10)) = maxAttempts plainConfig)
  /\ List.last
       (completions
          (stopQuery_run "query-1" plainConfig
             (map Fail (repeat throttled 10) ++ Fail throttled :: [Ok tt])%list))
       (Returned (Timeout 0))
     = Thrown throttled.
Proof.
  assert (H1 : Forall transient (repeat throttled 10)).
  { repeat constructor. }
  assert (H2 : Z.of_nat (List.length (repeat throttled 10)) <= maxAttempts plainConfig).
  { vm_compute. discriminate. }
  assert (H3 : ~ transient throttled
               \/ Z.of_nat (List.length (repeat throttled 10)) = maxAttempts plainConfig).
  { right. reflexivity. }
  split; [exact H1|]. split; [exact H2|]. split; [exact H3|].
  exact (proj1 (proj2 (loop_gives_up_at unit QueryExecutionIdParams unit unit plainConfig
                         {| QueryExecutionId_ := "query-1" |} (fun _ => tt)
                         (stopQuery_wait plainConfig)
                         (repeat throttled 10) throttled [Ok tt] H1 H2 H3))).
Defined.

(* ------------------------------------------------------------------ *)
(** ** More on the delays *)

(** A field set to 0 (or a name set to the empty string) is falsy, so it
    counts as not set: the delays, the retry bound, the database and the
    work group are then the default ones. *)
Theorem falsy_fields_take_defaults (query : string) (config : AthenaRequestConfig)
    (n : Z) :
  (baseRetryWait config = Some 0 ->
   startQuery_wait config n
   = Z.min (200 * 2 ^ n) (num_or (retryWaitMax config) defaultRetryWaitMax)
   /\ stopQuery_wait config n = 200 ^ n
   /\ getQueryExecution_wait config n = 200 ^ n)
  /\ (retryWaitMax config = Some 0 ->
      startQuery_wait config n
      = Z.min (num_or (baseRetryWait config) defaultBaseRetryWait * 2 ^ n) 10000)
  /\ (retryCountMax config = Some 0 -> canRetry n config = (n <? 10))
  /\ (database config = Some "" ->
      Database (startQuery_params query config) = "default")
  /\ (workGroup config = Some "" ->
      WorkGroup (startQuery_params query config) = "primary").
Proof.
  split; [|split; [|split; [|split]]].
  - intro H. unfold startQuery_wait, stopQuery_wait, getQueryExecution_wait.
    rewrite H. repeat split.
  - intro H. unfold startQuery_wait. rewrite H. reflexivity.
  - intro H. unfold canRetry. rewrite H. reflexivity.
  - intro H. simpl. rewrite H. reflexivity.
  - intro H. simpl. rewrite H. reflexivity.
Qed.

Lemma falsy_fields_take_defaults_witness :
  let config := mkConfig "s3://results/" (Some 0) (Some 0) (Some 0)
                  (Some "") None None (Some "") in
  startQuery_wait config 3 = 1600
  /\ canRetry 9 config = true
  /\ Database (startQuery_params "SELECT 1" config) = "default"
  /\ WorkGroup (startQuery_params "SELECT 1" config) = "primary".
Proof.
  intro config.
  pose proof (falsy_fields_take_defaults "SELECT 1" config 3)
    as (Hb & _ & _ & Hdb & Hwg).
  pose proof (falsy_fields_take_defaults "SELECT 1" config 9)
    as (_ & _ & Hc & _).
  split; [rewrite (proj1 (Hb eq_refl)); reflexivity|].
  split; [rewrite (Hc eq_refl); reflexivity|].
  split; [exact (Hdb eq_refl)|exact (Hwg eq_refl)].
Defined.

(** The delay of [startQuery] never exceeds [config.retryWaitMax || 10000];
    with a base delay that is not negative it does not decrease from one
    attempt to the next; with a positive base delay and a positive cap it is
    at least the smaller of the two. *)
Theorem startQuery_wait_bounds (config : AthenaRequestConfig) (n m : Z) :
  startQuery_wait config n <= num_or (retryWaitMax config) defaultRetryWaitMax
  /\ (0 <= num_or (baseRetryWait config) defaultBaseRetryWait ->
      0 <= n <= m ->
      startQuery_wait config n <= startQuery_wait config m)
  /\ (0 < num_or (baseRetryWait config) defaultBaseRetryWait ->
      0 <= n ->
      Z.min (num_or (baseRetryWait config) defaultBaseRetryWait)
            (num_or (retryWaitMax config) defaultRetryWaitMax)
      <= startQuery_wait config n).
Proof.
  split; [apply startQuery_wait_capped|].
  split; [apply startQuery_wait_monotone|].
  intros Hb Hn. unfold startQuery_wait.
  apply Z.min_le_compat_r.
  assert (H : 1 <= 2 ^ n) by (apply (Z.pow_le_mono_r 2 0 n); lia).
  nia.
Qed.

Lemma startQuery_wait_bounds_witness :
  (0 <= num_or (baseRetryWait plainConfig) defaultBaseRetryWait
   /\ 0 <= 3 <= 8
   /\ startQuery_wait plainConfig 3 <= startQuery_wait plainConfig 8)
  /\ (0 < num_or (baseRetryWait plainConfig) defaultBaseRetryWait
      /\ 0 <= 3
      /\ Z.min (num_or (baseRetryWait plainConfig) defaultBaseRetryWait)
               (num_or (retryWaitMax plainConfig) defaultRetryWaitMax)
         <= startQuery_wait plainConfig 3).
Proof.
  assert (H1 : 0 <= num_or (baseRetryWait plainConfig) defaultBaseRetryWait).
  { vm_compute. discriminate. }
  assert (H2 : 0 <= 3 <= 8) by lia.
  assert (H3 : 0 < num_or (baseRetryWait plainConfig) defaultBaseRetryWait).
  { reflexivity. }
  assert (H4 : 0 <= 3) by lia.
  split.
  - split; [exact H1|]. split; [exact H2|].
    exact (proj1 (proj2 (startQuery_wait_bounds plainConfig 3 8)) H1 H2).
  - split; [exact H3|]. split; [exact H4|].
    exact (proj2 (proj2 (startQuery_wait_bounds plainConfig 3 8)) H3 H4).
Defined.

(** With a base delay of at least 1 ms the delay of [startQuery] is the cap
    itself from attempt [cap] on at the latest; with the default base delay
    and cap it is 10000 ms from attempt 6 on. *)
Theorem startQuery_wait_reaches_cap (config : AthenaRequestConfig) (n : Z) :
  (1 <= num_or (baseRetryWait config) defaultBaseRetryWait ->
   0 <= n ->
   num_or (retryWaitMax config) defaultRetryWaitMax <= n ->
   startQuery_wait config n = num_or (retryWaitMax config) defaultRetryWaitMax)
  /\ (baseRetryWait config = None -> retryWaitMax config = None ->
      6 <= n -> startQuery_wait config n = 10000).
Proof.
  split.
  - intros Hb Hn Hmax. unfold startQuery_wait. apply Z.min_r.
    assert (H : n < 2 ^ n) by (apply Z.pow_gt_lin_r; lia).
    nia.
  - intros Hb Hm Hn. unfold startQuery_wait. rewrite Hb, Hm. simpl num_or.
    apply Z.min_r.
    assert (H : 2 ^ 6 <= 2 ^ n) by (apply Z.pow_le_mono_r; lia).
    change (2 ^ 6) with 64 in H. unfold defaultRetryWaitMax, defaultBaseRetryWait.
    lia.
Qed.

Lemma startQuery_wait_reaches_cap_witness :
  (1 <= num_or (baseRetryWait plainConfig) defaultBaseRetryWait
   /\ startQuery_wait plainConfig 10000 = 10000)
  /\ startQuery_wait plainConfig 6 = 10000.
Proof.
  split.
  - assert (H : 1 <= num_or (baseRetryWait plainConfig) defaultBaseRetryWait).
    { vm_compute. discriminate. }
    split; [exact H|].
    apply (proj1 (startQuery_wait_reaches_cap plainConfig 10000) H).
    + lia.
    + vm_compute. discriminate.
  - apply (proj2 (startQuery_wait_reaches_cap plainConfig 6));
      first [reflexivity | lia].
Defined.

(** The delay of [stopQuery] and [getQueryExecution] is the same in both;
    with a base delay of at least 1 ms it does not decrease from one attempt
    to the next, and with a base delay of at least 2 ms it is above any
    bound from the attempt of that number on: nothing caps it. *)
Theorem stop_and_get_wait_unbounded (config : AthenaRequestConfig) (n m bound : Z) :
  getQueryExecution_wait config n = stopQuery_wait config n
  /\ (1 <= num_or (baseRetryWait config) defaultBaseRetryWait ->
      0 <= n <= m ->
      stopQuery_wait config n <= stopQuery_wait config m)
  /\ (2 <= num_or (baseRetryWait config) defaultBaseRetryWait ->
      0 <= n -> bound <= n ->
      bound < stopQuery_wait config n).
Proof.
  split; [reflexivity|]. unfold stopQuery_wait. split.
  - intros Hb Hnm. apply Z.pow_le_mono_r; lia.
  - intros Hb Hn Hbound.
    assert (H1 : n < 2 ^ n) by (apply Z.pow_gt_lin_r; lia).
    assert (H2 : 2 ^ n <= num_or (baseRetryWait config) defaultBaseRetryWait ^ n).
    { apply Z.pow_le_mono_l. lia. }
    lia.
Qed.

Lemma stop_and_get_wait_unbounded_witness :
  (1 <= num_or (baseRetryWait plainConfig) defaultBaseRetryWait
   /\ 0 <= 1 <= 2
   /\ stopQuery_wait plainConfig 1 <= stopQuery_wait plainConfig 2)
  /\ (2 <= num_or (baseRetryWait plainConfig) defaultBaseRetryWait
      /\ 10000 < stopQuery_wait plainConfig 10000).
Proof.
  assert (H1 : 1 <= num_or (baseRetryWait plainConfig) defaultBaseRetryWait).
  { vm_compute. discriminate. }
  assert (H2 : 2 <= num_or (baseRetryWait plainConfig) defaultBaseRetryWait).
  { vm_compute. discriminate. }
  assert (H3 : 0 <= 1 <= 2) by lia.
  split.
  - split; [exact H1|]. split; [exact H3|].
    exact (proj1 (proj2 (stop_and_get_wait_unbounded plainConfig 1 2 0)) H1 H3).
  - split; [exact H2|].
    apply (proj2 (proj2 (stop_and_get_wait_unbounded plainConfig 10000 0 10000)) H2); lia.
Defined.

(* ------------------------------------------------------------------ *)
(** ** More on [checkQuery] *)

(** The five branches of the [switch], by the state they are taken for. *)
Lemma classify_cases (status : QueryExecutionStatus) :
  ((State status = Some "QUEUED" \/ State status = Some "RUNNING")
   /\ classify status = (false, None))
  \/ (State status = Some "SUCCEEDED" /\ classify status = (true, None))
  \/ (State status = Some "FAILED"
      /\ classify status
         = (false, Some (Error (str_or (StateChangeReason status)
                                   "FAILED: Execution Error"))))
  \/ (State status = Some "CANCELLED"
      /\ classify status = (false, Some (Error "FAILED: Query CANCELLED")))
  \/ (State status <> Some "QUEUED" /\ State status <> Some "RUNNING"
      /\ State status <> Some "SUCCEEDED" /\ State status <> Some "FAILED"
      /\ State status <> Some "CANCELLED"
      /\ classify status
         = (false,
            Some (Error ("FAILED: UnKnown State "
                         ++ match State status with
                            | Some s => s
                            | None => "undefined"
                            end)))).
Proof.
  destruct status as [[state|] reason]; cbn [State StateChangeReason].
  2:{ do 4 right. repeat split; discriminate. }
  unfold classify. cbn [State StateChangeReason case_label].
  destruct (String.eqb_spec state "QUEUED") as [->|H1].
  { left. split; [left|]; reflexivity. }
  destruct (String.eqb_spec state "RUNNING") as [->|H2].
  { left. split; [right|]; reflexivity. }
  destruct (String.eqb_spec state "SUCCEEDED") as [->|H3].
  { right. left. split; reflexivity. }
  destruct (String.eqb_spec state "FAILED") as [->|H4].
  { right. right. left. split; reflexivity. }
  destruct (String.eqb_spec state "CANCELLED") as [->|H5].
  { do 3 right. left. split; reflexivity. }
  do 4 right. simpl.
  repeat split; try (intro H; injection H; assumption).
Qed.

(** [checkQuery] reports success only for the exact state SUCCEEDED, and
    "not finished yet" only for the exact states QUEUED and RUNNING: the
    comparison is case sensitive, and a missing execution, status or state
    never counts as either. *)
Theorem checkQuery_fulfils_iff (inner : promise (option QueryExecution)) :
  (checkQuery_on inner = Fulfilled true
   <-> exists reason,
         inner = Fulfilled (Some (mkQueryExecution
                                    (Some (mkStatus (Some "SUCCEEDED") reason)))))
  /\ (checkQuery_on inner = Fulfilled false
      <-> exists state reason,
            (state = "QUEUED" \/ state = "RUNNING")
            /\ inner = Fulfilled (Some (mkQueryExecution
                                          (Some (mkStatus (Some state) reason))))).
Proof.
  split; split.
  - destruct inner as [|[[[status|]]|]|err]; simpl; try discriminate.
    destruct (classify_cases status)
      as [[_ H]|[[Hs H]|[[_ H]|[[_ H]|(_ & _ & _ & _ & _ & H)]]]];
      rewrite H; simpl; try discriminate.
    intros _. destruct status as [state reason]. simpl in Hs. subst state.
    exists reason. reflexivity.
  - intros [reason ->]. reflexivity.
  - destruct inner as [|[[[status|]]|]|err]; simpl; try discriminate.
    destruct (classify_cases status)
      as [[Hs H]|[[_ H]|[[_ H]|[[_ H]|(_ & _ & _ & _ & _ & H)]]]];
      rewrite H; simpl; try discriminate.
    intros _. destruct status as [state reason]. simpl in Hs.
    destruct Hs as [-> | ->].
    + exists "QUEUED", reason. split; [left|]; reflexivity.
    + exists "RUNNING", reason. split; [right|]; reflexivity.
  - intros (state & reason & [-> | ->] & ->); reflexivity.
Qed.

Lemma checkQuery_fulfils_iff_witness :
  checkQuery_on
    (Fulfilled (Some (mkQueryExecution (Some (mkStatus (Some "SUCCEEDED") None)))))
    = Fulfilled true
  /\ ~ (checkQuery_on
          (Fulfilled (Some (mkQueryExecution (Some (mkStatus (Some "Succeeded") None)))))
        = Fulfilled true).
Proof.
  split.
  - apply (proj2 (proj1 (checkQuery_fulfils_iff _))). exists None. reflexivity.
  - intro H. apply (proj1 (proj1 (checkQuery_fulfils_iff _))) in H.
    destruct H as [reason H]. discriminate H.
Defined.

Lemma classify_error_inv (status : QueryExecutionStatus) (e : JsError) :
  snd (classify status) = Some e ->
  fst (classify status) = false
  /\ err_class e = PlainError
  /\ message e <> "".
Proof.
  destruct (classify_cases status)
    as [[_ H]|[[_ H]|[[_ H]|[[_ H]|(_ & _ & _ & _ & _ & H)]]]];
    rewrite H; simpl; try discriminate; intro He; injection He as <-;
    (split; [reflexivity|split; [reflexivity|]]); simpl; try discriminate.
  destruct (StateChangeReason status) as [[|c r]|]; simpl; discriminate.
Qed.

(** Whatever the status, the [switch] never yields both success and an
    error, and every error it builds is a plain [Error] with a message that
    is not empty: a failed query without reason, or with an empty one, gets
    the generic message. *)
Theorem classify_error_has_message (status : QueryExecutionStatus) (e : JsError) :
  snd (classify status) = Some e ->
  fst (classify status) = false
  /\ err_class e = PlainError
  /\ message e <> "".
Proof. apply classify_error_inv. Qed.

Lemma classify_error_has_message_witness :
  snd (classify (mkStatus (Some "FAILED") (Some ""))) = Some (Error "FAILED: Execution Error")
  /\ message (Error "FAILED: Execution Error") <> "".
Proof.
  split; [reflexivity|].
  exact (proj2 (proj2 (classify_error_has_message
                         (mkStatus (Some "FAILED") (Some ""))
                         (Error "FAILED: Execution Error") eq_refl))).
Defined.

(** [checkQuery] is settled exactly when [getQueryExecution] is: it stays
    pending while that promise is pending, settles for every value the
    promise is fulfilled with, and passes a rejection on with the same
    error.  The errors it builds itself are plain ones or type errors, so
    an exception of the service that it rejects with is the one
    [getQueryExecution] was rejected with. *)
Theorem checkQuery_settles_with_inner (inner : promise (option QueryExecution)) :
  (checkQuery_on inner = Pending <-> inner = Pending)
  /\ (forall err, inner = Rejected err -> checkQuery_on inner = Rejected err)
  /\ (forall err,
        checkQuery_on inner = Rejected err ->
        err_class err = TooManyRequestsException \/ err_class err = ServiceException ->
        inner = Rejected err).
Proof.
  split; [|split].
  - split; [|intros ->; reflexivity].
    destruct inner as [|[[[status|]]|]|err]; simpl; try discriminate; [reflexivity|].
    destruct (classify status) as [b [e|]]; simpl; discriminate.
  - intros err ->. reflexivity.
  - intros err. destruct inner as [|[[[status|]]|]|err']; simpl.
    + discriminate.
    + destruct (classify status) as [b [e|]] eqn:Hc; simpl; [|discriminate].
      intros H Hclass. injection H as <-.
      destruct (classify_error_inv status e) as (_ & He & _).
      { rewrite Hc. reflexivity. }
      rewrite He in Hclass. destruct Hclass; discriminate.
    + intros H Hclass. injection H as <-. destruct Hclass; discriminate.
    + intros H Hclass. injection H as <-. destruct Hclass; discriminate.
    + intros H _. injection H as ->. reflexivity.
Qed.

Lemma checkQuery_settles_with_inner_witness :
  checkQuery_on (Rejected accessDenied) = Rejected accessDenied
  /\ checkQuery_on (Fulfilled None) <> Pending.
Proof.
  split.
  - exact (proj1 (proj2 (checkQuery_settles_with_inner (Rejected accessDenied)))
             accessDenied eq_refl).
  - intro H.
    apply (proj1 (proj1 (checkQuery_settles_with_inner (Fulfilled None)))) in H.
    discriminate H.
Defined.

(* ------------------------------------------------------------------ *)
(** ** More on [createClient] *)

(** A client that [createClient] returns was built from a client
    configuration with a [bucketUri] that is not empty and an AWS
    configuration with a [region] that is not empty; it keeps the client
    configuration as given, and both service handles carry that same AWS
    configuration, with the API versions 2017-05-18 (Athena) and 2006-03-01
    (S3). *)
Theorem createClient_returns_checked
    (clientConfig : option AthenaClientConfig) (awsConfig : option AwsConfig)
    (client : AthenaClient) :
  snd (createClient clientConfig awsConfig) = Ok client ->
  exists cc ac bucket place,
    clientConfig = Some cc /\ awsConfig = Some ac
    /\ client_bucketUri cc = Some bucket /\ bucket <> ""
    /\ region ac = Some place /\ place <> ""
    /\ client_config client = cc
    /\ athena (client_request client) = mkAwsAthenaClient ac "2017-05-18"
    /\ s3 (client_request client) = mkS3 ac "2006-03-01".
Proof.
  unfold createClient.
  destruct clientConfig as [cc|]; [|discriminate].
  destruct (undefined_or_empty (client_bucketUri cc)) eqn:Hb; [discriminate|].
  destruct awsConfig as [ac|]; [|discriminate].
  destruct (undefined_or_empty (region ac)) eqn:Hr; [discriminate|].
  simpl. intro H. injection H as <-.
  destruct (client_bucketUri cc) as [bucket|] eqn:Hbucket; [|discriminate].
  destruct (region ac) as [place|] eqn:Hplace; [|discriminate].
  exists cc, ac, bucket, place. simpl.
  split; [reflexivity|]. split; [reflexivity|]. split; [exact Hbucket|].
  split; [intros ->; discriminate Hb|]. split; [exact Hplace|].
  split; [intros ->; discriminate Hr|].
  repeat split.
Qed.

Lemma createClient_returns_checked_witness :
  let made := mkAthenaClient
                (mkAthenaRequest
                   (mkAwsAthenaClient (mkAwsConfig (Some "us-east-1") None None) "2017-05-18")
                   (mkS3 (mkAwsConfig (Some "us-east-1") None None) "2006-03-01"))
                (mkClientConfig (Some "s3://results/")) in
  snd (createClient (Some (mkClientConfig (Some "s3://results/")))
         (Some (mkAwsConfig (Some "us-east-1") None None))) = Ok made
  /\ exists cc, client_config made = cc /\ client_bucketUri cc <> Some "".
Proof.
  intro made. split; [reflexivity|].
  destruct (createClient_returns_checked
              (Some (mkClientConfig (Some "s3://results/")))
              (Some (mkAwsConfig (Some "us-east-1") None None)) made eq_refl)
    as (cc & ac & bucket & place & _ & _ & Hb & Hne & _ & _ & Hcc & _).
  exists cc. split; [exact Hcc|].
  rewrite Hb. intro H. injection H as H. exact (Hne H).
Defined.

(** When [createClient] throws, nothing has been constructed and the error
    is a plain [Error] with one of two messages; 'region required' is only
    thrown for a client configuration that passed its own check, so a call
    that lacks both gets 'bucket uri required'. *)
Theorem createClient_throws_only
    (clientConfig : option AthenaClientConfig) (awsConfig : option AwsConfig)
    (err : JsError) :
  snd (createClient clientConfig awsConfig) = Fail err ->
  fst (createClient clientConfig awsConfig) = []
  /\ ((err = Error "bucket uri required" /\ no_bucketUri clientConfig)
      \/ (err = Error "region required"
          /\ ~ no_bucketUri clientConfig /\ no_region awsConfig)).
Proof.
  unfold createClient, no_bucketUri, no_region.
  destruct clientConfig as [cc|].
  2:{ simpl. intro H. injection H as <-. split; [reflexivity|]. left. split; [reflexivity|exact I]. }
  destruct (undefined_or_empty (client_bucketUri cc)) eqn:Hb.
  { simpl. intro H. injection H as <-. split; [reflexivity|]. left.
    split; [reflexivity|]. apply undefined_or_empty_spec. exact Hb. }
  assert (Hb' : ~ (client_bucketUri cc = None \/ client_bucketUri cc = Some "")).
  { rewrite <- undefined_or_empty_spec, Hb. discriminate. }
  destruct awsConfig as [ac|].
  2:{ simpl. intro H. injection H as <-. split; [reflexivity|]. right.
      split; [reflexivity|]. split; [exact Hb'|exact I]. }
  destruct (undefined_or_empty (region ac)) eqn:Hr; [|discriminate].
  simpl. intro H. injection H as <-. split; [reflexivity|]. right.
  split; [reflexivity|]. split; [exact Hb'|].
  apply undefined_or_empty_spec. exact Hr.
Qed.

Lemma createClient_throws_only_witness :
  snd (createClient None None) = Fail (Error "bucket uri required")
  /\ fst (createClient None None) = [].
Proof.
  split; [reflexivity|].
  exact (proj1 (createClient_throws_only None None
                  (Error "bucket uri required") eq_refl)).
Defined.

(* ------------------------------------------------------------------ *)
(** ** More on the request of [startQuery] *)

(** The request of [startQuery] carries the query text and the configured
    output location unchanged.  It has an encryption block exactly when an
    encryption option is configured; the KMS key is part of the block only
    if it is configured and not empty, and a KMS key configured without an
    encryption option is left out of the request altogether. *)
Theorem startQuery_params_encryption (query : string) (config : AthenaRequestConfig) :
  let params := startQuery_params query config in
  QueryString params = query
  /\ OutputLocation (ResultConfiguration_ params) = bucketUri config
  /\ (encryptionOption config = None ->
      EncryptionConfiguration_ (ResultConfiguration_ params) = None)
  /\ (forall opt, encryptionOption config = Some opt ->
      exists block,
        EncryptionConfiguration_ (ResultConfiguration_ params) = Some block
        /\ EncryptionOption_ block = opt
        /\ (forall key, KmsKey block = Some key <->
                        encryptionKmsKey config = Some key /\ key <> "")).
Proof.
  cbv zeta. split; [reflexivity|]. split; [reflexivity|]. split.
  - intro H. simpl. rewrite H. reflexivity.
  - intros opt H. simpl. rewrite H. eexists. split; [reflexivity|].
    split; [reflexivity|]. intro key. simpl.
    destruct (encryptionKmsKey config) as [[|c k]|]; simpl.
    + split; [discriminate|]. intros [H1 H2]. injection H1 as <-. contradiction.
    + split.
      * intro H1. injection H1 as <-. split; [reflexivity|discriminate].
      * intros [H1 _]. exact H1.
    + split; [discriminate|]. intros [H1 _]. discriminate.
Qed.

Lemma startQuery_params_encryption_witness :
  let config := mkConfig "s3://results/" None None None None None
                  (Some "arn:aws:kms:key-1") None in
  encryptionOption config = None
  /\ EncryptionConfiguration_
       (ResultConfiguration_ (startQuery_params "SELECT 1" config)) = None.
Proof.
  intro config. split; [reflexivity|].
  exact (proj1 (proj2 (proj2 (startQuery_params_encryption "SELECT 1" config))) eq_refl).
Defined.

(* ------------------------------------------------------------------ *)
(** ** More on [getResultsStream] *)

Lemma split_hd_no_sep (sep : ascii) (s : string) :
  has_char sep (hd "" (split sep s)) = false.
Proof.
  induction s as [|c s IH]; simpl; [reflexivity|].
  destruct (Ascii.eqb c sep) eqn:Hc; [reflexivity|].
  destruct (split sep s) as [|seg segs]; simpl in *.
  - rewrite Hc. reflexivity.
  - rewrite Hc. exact IH.
Qed.

Lemma split_single (sep : ascii) (s b : string) :
  split sep s = [b] -> has_char sep s = false.
Proof.
  revert b. induction s as [|c s IH]; intros b H; simpl in *; [reflexivity|].
  destruct (Ascii.eqb c sep) eqn:Hc.
  - injection H as _ H. exfalso. exact (split_not_nil sep s H).
  - destruct (split sep s) as [|seg segs] eqn:Hs.
    + exfalso. exact (split_not_nil sep s Hs).
    + injection H as _ H. subst segs. simpl. exact (IH seg eq_refl).
Qed.

(** The bucket [getResultsStream] asks the object store for never contains
    a ['/'], whatever the locator. *)
Theorem getResultsStream_bucket_no_separator (s3Uri : string) :
  has_char "/" (Bucket (getResultsStream_params s3Uri)) = false.
Proof.
  rewrite getResultsStream_params_eq. simpl Bucket. apply split_hd_no_sep.
Qed.

(** The parsing loses nothing but the scheme: when what is left of the
    locator has a ['/'], the bucket, a ['/'] and the key make it up again;
    when it has none, it is the bucket and the key is empty. *)
Theorem getResultsStream_params_reassemble (s3Uri : string) :
  let rest := replace "s3://" "" s3Uri in
  let params := getResultsStream_params s3Uri in
  rest = if has_char "/" rest
         then Bucket params ++ "/" ++ Key params
         else Bucket params.
Proof.
  cbv zeta. rewrite getResultsStream_params_eq. simpl Bucket. simpl Key.
  pose proof (join_split "/" (replace "s3://" "" s3Uri)) as Hjoin.
  destruct (split "/" (replace "s3://" "" s3Uri)) as [|b [|x xs]] eqn:Hsplit.
  - exfalso. exact (split_not_nil _ _ Hsplit).
  - rewrite (split_single _ _ _ Hsplit). simpl in *. symmetry. exact Hjoin.
  - destruct (has_char "/" (replace "s3://" "" s3Uri)) eqn:Hc.
    + cbn [hd tl]. rewrite <- Hjoin at 1. reflexivity.
    + rewrite (split_no_sep _ _ Hc) in Hsplit. discriminate Hsplit.
Qed.
